(** * Parsr: link classification and view aggregation (src/parser.py)

    A shallow embedding of [SocialMediaParser], [VKParser],
    [TelegramParser], [OKParser] and [main].

    Conventions of the embedding.
    - A Python [str] is a list of code points ([pystr]).  The case,
      digit, word and white-space tables are written out for the blocks
      Basic Latin, Latin-1 Supplement and Cyrillic U+0400..U+045F, the
      alphabets of the links and pages the program is written for; any
      other code point is taken as a caseless symbol.
    - A Python [int] is a [Z].
    - A list the source appends to is passed in and returned.
    - What the outside world answers (file contents, typed input, HTTP
      responses, Telegram replies) is an explicit argument.
    - Of the console output only the last line of [main], the report,
      is part of the model. *)

From Stdlib Require Import ZArith NArith QArith List Lia String Ascii DecimalString DecimalPos.
From stdpp Require Import base option list gmap.

Open Scope Z_scope.
Open Scope list_scope.

(** ** Python strings *)

Module Py.

Definition pystr := list N.

(** An ASCII literal of the source as a [pystr]. *)
Definition py (s : string) : pystr :=
  List.map N_of_ascii (list_ascii_of_string s).

Definition between (lo hi c : N) : bool := ((lo <=? c) && (c <=? hi))%N.

(** [str.lower] on one code point. *)
Definition cp_lower (c : N) : N :=
  if between 65 90 c then (c + 32)%N
  else if between 192 214 c then (c + 32)%N
  else if between 216 222 c then (c + 32)%N
  else if between 1040 1071 c then (c + 32)%N
  else if between 1024 1039 c then (c + 80)%N
  else c.

Definition lower (s : pystr) : pystr := List.map cp_lower s.

(** [\d] of a [str] pattern. *)
Definition is_digit (c : N) : bool := between 48 57 c.

(** [\w] of a [str] pattern: alphanumeric or underscore. *)
Definition is_word (c : N) : bool :=
  is_digit c || between 65 90 c || between 97 122 c || (c =? 95)%N
  || (c =? 170)%N || (c =? 178)%N || (c =? 179)%N || (c =? 181)%N
  || (c =? 185)%N || (c =? 186)%N || between 188 190 c
  || between 192 214 c || between 216 246 c || between 248 255 c
  || between 1024 1119 c.

(** [str.isspace] on one code point, also [\s]. *)
Definition is_space (c : N) : bool :=
  between 9 13 c || between 28 32 c || (c =? 133)%N || (c =? 160)%N.

Definition str_eqb (a b : pystr) : bool := bool_decide (a = b).

(** [s.startswith(p)] *)
Fixpoint startswith (p s : pystr) : bool :=
  match p, s with
  | [], _ => true
  | _ :: _, [] => false
  | a :: p', b :: s' => (a =? b)%N && startswith p' s'
  end.

(** [p in s] *)
Fixpoint contains (p s : pystr) : bool :=
  startswith p s ||
  match s with
  | [] => false
  | _ :: s' => contains p s'
  end.

(** [s.split(sep)] for a one-character separator: the first piece and
    the pieces after it (the result of [split] is never empty). *)
Fixpoint split (sep : N) (s : pystr) : pystr * list pystr :=
  match s with
  | [] => ([], [])
  | c :: s' =>
      let '(first, others) := split sep s' in
      if (c =? sep)%N then ([], first :: others) else (c :: first, others)
  end.

(** [s.replace(c, '')] for a one-character [c]. *)
Definition remove_char (c : N) (s : pystr) : pystr :=
  List.filter (fun x => negb (x =? c)%N) s.

Fixpoint lstrip (s : pystr) : pystr :=
  match s with
  | c :: s' => if is_space c then lstrip s' else s
  | [] => []
  end.

Definition rstrip (s : pystr) : pystr := rev (lstrip (rev s)).

(** [s.strip()] *)
Definition strip (s : pystr) : pystr := rstrip (lstrip s).

Definition digit_value (c : N) : Z := Z.of_N c - 48.

(** [int(s)] for a string of decimal digits. *)
Definition int_of_digits (s : pystr) : Z :=
  fold_left (fun acc c => 10 * acc + digit_value c) s 0.

End Py.

Import Py.

(** ** Regular expressions of [re], as far as the patterns use them *)

Module Re.

(** The syntax the patterns of the source are written in.  Repetition is
    only ever applied to one-character classes there. *)
Inductive regex :=
| Chr (c : N)                  (* a literal character *)
| Cls (p : N -> bool)          (* a character class *)
| Eps                          (* the empty pattern *)
| Seq (r1 r2 : regex)          (* r1 r2 *)
| Alt (r1 r2 : regex)          (* r1|r2 *)
| Opt (r : regex)              (* r? *)
| PlusC (p : N -> bool)        (* [class]+ *)
| StarC (p : N -> bool)        (* [class]* *)
| Grp (i : nat) (r : regex).   (* the i-th capturing group *)

(** A literal string of the pattern. *)
Fixpoint lit (s : pystr) : regex :=
  match s with
  | [] => Eps
  | [c] => Chr c
  | c :: s' => Seq (Chr c) (lit s')
  end.

Definition str (s : string) : regex := lit (py s).

Definition groups := gmap nat pystr.

Section Matcher.
Context {R : Type}.

(** Greedy [class]+ with backtracking: take as many characters as
    possible, give one back at a time while the rest fails. *)
Fixpoint plusc (p : N -> bool) (s : pystr) (k : pystr -> option R) : option R :=
  match s with
  | c :: s' =>
      if p c then
        match plusc p s' k with
        | Some r => Some r
        | None => k s'
        end
      else None
  | [] => None
  end.

Definition starc (p : N -> bool) (s : pystr) (k : pystr -> option R) : option R :=
  match plusc p s k with
  | Some r => Some r
  | None => k s
  end.

Definition chr_eqb (ignorecase : bool) (c x : N) : bool :=
  if ignorecase then (cp_lower c =? cp_lower x)%N else (c =? x)%N.

(** The backtracking matcher: [k] is what is left of the pattern. *)
Fixpoint rmatch (ignorecase : bool) (r : regex) (s : pystr) (g : groups)
    (k : pystr -> groups -> option R) : option R :=
  match r with
  | Chr c =>
      match s with
      | x :: s' => if chr_eqb ignorecase c x then k s' g else None
      | [] => None
      end
  | Cls p =>
      match s with
      | x :: s' => if p x then k s' g else None
      | [] => None
      end
  | Eps => k s g
  | Seq r1 r2 =>
      rmatch ignorecase r1 s g (fun s1 g1 => rmatch ignorecase r2 s1 g1 k)
  | Alt r1 r2 =>
      match rmatch ignorecase r1 s g k with
      | Some x => Some x
      | None => rmatch ignorecase r2 s g k
      end
  | Opt r1 =>
      match rmatch ignorecase r1 s g k with
      | Some x => Some x
      | None => k s g
      end
  | PlusC p => plusc p s (fun s' => k s' g)
  | StarC p => starc p s (fun s' => k s' g)
  | Grp i r1 =>
      rmatch ignorecase r1 s g
        (fun s1 g1 => k s1 (<[i := take (length s - length s1) s]> g1))
  end.
End Matcher.

(** A match object: the matched text, what follows it, the groups. *)
Record match_obj := {
  m_text : pystr;
  m_rest : pystr;
  m_groups : groups
}.

(** [pattern.match] at the head of [s]. *)
Definition match_at (ignorecase : bool) (r : regex) (s : pystr) : option match_obj :=
  rmatch ignorecase r s ∅
    (fun s' g => Some {| m_text := take (length s - length s') s;
                         m_rest := s'; m_groups := g |}).

(** [re.search]: the match that starts leftmost. *)
Fixpoint search_flags (ignorecase : bool) (r : regex) (s : pystr) : option match_obj :=
  match match_at ignorecase r s with
  | Some m => Some m
  | None =>
      match s with
      | [] => None
      | _ :: s' => search_flags ignorecase r s'
      end
  end.

Definition search := search_flags false.

(** [match.group(i)]; every group of the source's patterns takes part
    in every match. *)
Definition group (m : match_obj) (i : nat) : pystr :=
  default [] (m_groups m !! i).

(** [re.findall] for a pattern without groups whose matches are not
    empty: the matches from left to right, not overlapping.  [skip] is
    the number of characters the last match still covers. *)
Fixpoint findall_from (r : regex) (s : pystr) (skip : nat) : list pystr :=
  match s with
  | [] => []
  | _ :: s' =>
      match skip with
      | S n => findall_from r s' n
      | O =>
          match match_at false r s with
          | Some m => m_text m :: findall_from r s' (length (m_text m) - 1)
          | None => findall_from r s' 0
          end
      end
  end.

Definition findall (r : regex) (s : pystr) : list pystr := findall_from r s 0.

End Re.

Import Re.

(** ** SocialMediaParser: reading and classifying the links *)

Definition ch (a : ascii) : N := N_of_ascii a.

(** Concatenation of the parts of a pattern. *)
Fixpoint cat (l : list regex) : regex :=
  match l with
  | [] => Eps
  | [r] => r
  | r :: l' => Seq r (cat l')
  end.

Definition digits : regex := PlusC is_digit.

Record vk_post := {
  vk_post_id : pystr;
  vk_original_link : pystr
}.

Record telegram_post := {
  tg_channel : pystr;
  tg_message_id : Z;
  tg_original_link : pystr
}.

Record ok_post := {
  ok_group_name : pystr;
  ok_topic_id : pystr;
  ok_original_link : pystr
}.

(** The dictionary [extract_post_ids] returns. *)
Record posts_data := {
  vk : list vk_post;
  telegram : list telegram_post;
  ok : list ok_post
}.

Module SocialMediaParser.

Definition max_links : nat := 100.

(** [read_links_from_file]: [file] is the list of the lines of
    links.txt, or [None] when opening or reading it raises. *)
Definition read_links_from_file (file : option (list pystr)) : list pystr :=
  match file with
  | Some lines =>
      let links :=
        List.map strip (List.filter (fun line => negb (str_eqb (strip line) [])) lines) in
      match links with
      | [] => []
      | _ =>
          if (max_links <? length links)%nat then take max_links links else links
      end
  | None => []
  end.

(** r'wall-?(\d+)_(\d+)', r'vk\.com/(?:wall)?(\d+_\d+)',
    r'vk\.com/(?:[\w\.]+)\?w=wall-(\d+_\d+)' *)
Definition vk_patterns : list regex :=
  [ cat [str "wall"; Opt (Chr (ch "-")); Grp 1 digits; Chr (ch "_"); Grp 2 digits];
    cat [str "vk.com/"; Opt (str "wall");
         Grp 1 (cat [digits; Chr (ch "_"); digits])];
    cat [str "vk.com/"; PlusC (fun c => is_word c || (c =? ch ".")%N);
         str "?w=wall-"; Grp 1 (cat [digits; Chr (ch "_"); digits])] ].

(** The loop of [_extract_vk_post]; [idx] is the position of [pattern]
    in [patterns], which is what [pattern == patterns[0]] tests. *)
Fixpoint vk_pattern_loop (idx : nat) (patterns : list regex)
    (link original_link : pystr) (vk_posts : list vk_post) : list vk_post :=
  match patterns with
  | [] => vk_posts
  | pattern :: rest =>
      match search pattern link with
      | Some m =>
          let post_id_str :=
            if (idx =? 0)%nat then
              let owner_id := group m 1 in
              let post_id := group m 2 in
              let owner_id :=
                if startswith (py "-") owner_id then owner_id
                else py "-" ++ owner_id in
              owner_id ++ py "_" ++ post_id
            else group m 1 in
          vk_posts ++ [{| vk_post_id := post_id_str;
                          vk_original_link := original_link |}]
      | None => vk_pattern_loop (S idx) rest link original_link vk_posts
      end
  end.

Definition _extract_vk_post (link original_link : pystr)
    (vk_posts : list vk_post) : list vk_post :=
  vk_pattern_loop 0 vk_patterns link original_link vk_posts.

(** r'(?:t\.me|telegram\.me)/(?:s/)?([^/\?]+)/(\d+)',
    r'(?:t\.me|telegram\.me)/c/(\d+)/(\d+)' *)
Definition telegram_patterns : list regex :=
  [ cat [Alt (str "t.me") (str "telegram.me"); Chr (ch "/"); Opt (str "s/");
         Grp 1 (PlusC (fun c => negb ((c =? ch "/")%N || (c =? ch "?")%N)));
         Chr (ch "/"); Grp 2 digits];
    cat [Alt (str "t.me") (str "telegram.me"); str "/c/"; Grp 1 digits;
         Chr (ch "/"); Grp 2 digits] ].

(** [link.split('?')[0].split('#')[0]] *)
Definition clean_link (link : pystr) : pystr :=
  fst (split (ch "#") (fst (split (ch "?") link))).

Fixpoint telegram_pattern_loop (patterns : list regex)
    (clean original_link : pystr) (telegram_posts : list telegram_post)
    : list telegram_post :=
  match patterns with
  | [] => telegram_posts
  | pattern :: rest =>
      match search pattern clean with
      | Some m =>
          let channel := group m 1 in
          let message_id := int_of_digits (group m 2) in
          let channel :=
            if startswith (py "@") channel then drop 1 channel else channel in
          telegram_posts ++ [{| tg_channel := channel;
                                tg_message_id := message_id;
                                tg_original_link := original_link |}]
      | None => telegram_pattern_loop rest clean original_link telegram_posts
      end
  end.

Definition _extract_telegram_post (link original_link : pystr)
    (telegram_posts : list telegram_post) : list telegram_post :=
  telegram_pattern_loop telegram_patterns (clean_link link) original_link
    telegram_posts.

(** r'ok\.ru/([^/\?]+)/topic/(\d+)', r'ok\.ru/([^/\?]+)/status/(\d+)',
    r'ok\.ru/(?:group)?(\d+)/topic/(\d+)' *)
Definition ok_patterns : list regex :=
  [ cat [str "ok.ru/";
         Grp 1 (PlusC (fun c => negb ((c =? ch "/")%N || (c =? ch "?")%N)));
         str "/topic/"; Grp 2 digits];
    cat [str "ok.ru/";
         Grp 1 (PlusC (fun c => negb ((c =? ch "/")%N || (c =? ch "?")%N)));
         str "/status/"; Grp 2 digits];
    cat [str "ok.ru/"; Opt (str "group"); Grp 1 digits; str "/topic/";
         Grp 2 digits] ].

Fixpoint ok_pattern_loop (patterns : list regex)
    (link original_link : pystr) (ok_posts : list ok_post) : list ok_post :=
  match patterns with
  | [] => ok_posts
  | pattern :: rest =>
      match search pattern link with
      | Some m =>
          ok_posts ++ [{| ok_group_name := group m 1;
                          ok_topic_id := group m 2;
                          ok_original_link := original_link |}]
      | None => ok_pattern_loop rest link original_link ok_posts
      end
  end.

Definition _extract_ok_post (link original_link : pystr)
    (ok_posts : list ok_post) : list ok_post :=
  ok_pattern_loop ok_patterns link original_link ok_posts.

(** The body of the loop of [extract_post_ids]. *)
Definition classify_link (acc : posts_data) (link : pystr) : posts_data :=
  let link_lower := lower link in
  if contains (py "vk.com") link_lower || startswith (py "wall") link_lower then
    {| vk := _extract_vk_post link_lower link (vk acc);
       telegram := telegram acc; ok := ok acc |}
  else if contains (py "t.me") link_lower || contains (py "telegram.me") link_lower then
    {| vk := vk acc;
       telegram := _extract_telegram_post link_lower link (telegram acc);
       ok := ok acc |}
  else if contains (py "ok.ru") link_lower then
    {| vk := vk acc; telegram := telegram acc;
       ok := _extract_ok_post link_lower link (ok acc) |}
  else acc.

Definition extract_post_ids (links : list pystr) : posts_data :=
  fold_left classify_link links {| vk := []; telegram := []; ok := [] |}.

End SocialMediaParser.

Import SocialMediaParser.

(** ** ConfigManager *)

Module ConfigManager.

(** The values config.json holds. *)
Inductive value :=
| VNone
| VInt (z : Z)
| VStr (s : pystr).

(** [bool(v)] *)
Definition truthy (v : value) : bool :=
  match v with
  | VNone => false
  | VInt z => negb (z =? 0)
  | VStr s => negb (str_eqb s [])
  end.

(** [self.config.get(key)] *)
Definition get (config : gmap pystr value) (key : pystr) : value :=
  default VNone (config !! key).

(** [self.config[key] = value]; saving the file is not modelled. *)
Definition set (config : gmap pystr value) (key : pystr) (v : value)
    : gmap pystr value :=
  <[key := v]> config.

Definition has_telegram_creds (config : gmap pystr value) : bool :=
  forallb truthy [get config (py "telegram_api_id");
                  get config (py "telegram_api_hash");
                  get config (py "telegram_phone")].

Definition has_vk_token (config : gmap pystr value) : bool :=
  truthy (get config (py "vk_token")).

End ConfigManager.

Import ConfigManager.

(** ** View results *)

Record view_result := {
  link : pystr;
  views : Z
}.

Definition sum_views (data : list view_result) : Z :=
  fold_right (fun r acc => views r + acc) 0 data.

(** [str(z)] for an [int]. *)
Definition str_of_int (z : Z) : pystr :=
  py (DecimalString.NilEmpty.string_of_int (Z.to_int z)).

(** ** VKParser *)

Module VKParser.

(** One element of response.items, with the fields [get_views] reads;
    [None] is a key that is missing. *)
Record vk_item := {
  item_owner_id : option Z;
  item_id : option Z;
  item_views : option (option Z)     (* views, and views.count in it *)
}.

(** The JSON object of the reply. *)
Record vk_data := {
  data_error : option (option pystr);            (* error, error.error_msg *)
  data_response : option (option (list vk_item)) (* response, response.items *)
}.

(** What [self.session.post] and [response.json()] come to. *)
Inductive vk_reply :=
| TransportError                              (* session.post raises *)
| Response (status_code : Z) (json : option vk_data).
                                   (* json = None: the body is not JSON *)

(** [response.raise_for_status()] raises for these. *)
Definition http_error (status_code : Z) : bool :=
  (400 <=? status_code) && (status_code <? 600).

Record state := {
  api_token : value;
  config : gmap pystr value
}.

(** [setup_token]; [typed] is what the user types at the prompt. *)
Definition setup_token (typed : pystr) (st : state) : state :=
  let token := strip typed in
  if negb (str_eqb token []) then
    {| api_token := VStr token;
       config := set (config st) (py "vk_token") (VStr token) |}
  else st.

(** The first loop of the [try] block: the dictionary post_views. *)
Definition post_views_of (posts : list vk_item) : gmap pystr Z :=
  fold_left
    (fun post_views post =>
       let post_key :=
         str_of_int (default 0 (item_owner_id post)) ++ py "_"
           ++ str_of_int (default 0 (item_id post)) in
       let views :=
         match item_views post with
         | Some (Some count) => count
         | _ => 0
         end in
       <[post_key := views]> post_views)
    posts ∅.

(** The second loop: the running total and vk_views_data. *)
Definition collect_views (post_views : gmap pystr Z) (vk_posts : list vk_post)
    : Z * list view_result :=
  fold_left
    (fun '(total_views, vk_views_data) vk_post =>
       let post_id := vk_post_id vk_post in
       let views := default 0 (post_views !! post_id) in
       (total_views + views,
        vk_views_data ++ [{| link := vk_original_link vk_post; views := views |}]))
    vk_posts (0, []).

(** The [try] block of [get_views], an exception read as [(0, [])]. *)
Definition fetch (reply : vk_reply) (vk_posts : list vk_post)
    : Z * list view_result :=
  match reply with
  | TransportError => (0, [])
  | Response status_code json =>
      if http_error status_code then (0, [])
      else
        match json with
        | None => (0, [])
        | Some data =>
            match data_error data with
            | Some _ => (0, [])
            | None =>
                let posts :=
                  match data_response data with
                  | Some (Some items) => items
                  | _ => []
                  end in
                collect_views (post_views_of posts) vk_posts
            end
        end
  end.

(** The part of [get_views] that looks for the token. *)
Definition acquire_token (typed : pystr) (st : state) : state :=
  if negb (has_vk_token (config st)) then
    let st := {| api_token := get (config st) (py "vk_token");
                 config := config st |} in
    if negb (truthy (api_token st)) then
      let st := setup_token typed st in
      {| api_token := get (config st) (py "vk_token"); config := config st |}
    else st
  else st.

Definition get_views (typed : pystr) (reply : vk_reply) (st : state)
    (vk_posts : list vk_post) : Z * list view_result * state :=
  match vk_posts with
  | [] => (0, [], st)
  | _ =>
      let st := acquire_token typed st in
      if negb (truthy (api_token st)) then (0, [], st)
      else (fetch reply vk_posts, st)
  end.

End VKParser.

(** ** TelegramParser *)

Module TelegramParser.

(** What [client.get_messages(channel, ids=...)] returns. *)
Inductive message :=
| NoMessage                       (* None: no such message *)
| Message (msg_views : option Z). (* a message; its counter may be None *)

(** How one call of [get_messages] ends. *)
Inductive reply :=
| Returned (m : message)
| FloodWaitError (seconds : Z)
| OtherError.             (* ChannelPrivateError or any other Exception *)

(** What the fetcher does to the outside, in the order it does it. *)
Inductive event :=
| Connect
| GetMessages (channel : pystr) (ids : Z)
| Sleep (seconds : Q)
| Disconnect.

Record state := {
  api_id : value;
  api_hash : value;
  phone : value;
  config : gmap pystr value
}.

(** [int(s)] of a stripped string: a sign, then digits that single
    underscores may separate; [None] is ValueError. *)
Fixpoint digits_ok (after_digit : bool) (s : pystr) : bool :=
  match s with
  | [] => after_digit
  | c :: s' =>
      if is_digit c then digits_ok true s'
      else if (c =? ch "_")%N then after_digit && digits_ok false s'
      else false
  end.

Definition py_int (s : pystr) : option Z :=
  let '(negative, body) :=
    match s with
    | c :: s' =>
        if (c =? ch "-")%N then (true, s')
        else if (c =? ch "+")%N then (false, s')
        else (false, s)
    | [] => (false, [])
    end in
  if digits_ok false body then
    let n := int_of_digits (remove_char (ch "_") body) in
    Some (if negative then - n else n)
  else None.

(** [setup_credentials]; [typed] holds the three answers. *)
Definition setup_credentials (typed : pystr * pystr * pystr) (st : state) : state :=
  let '(a, h, p) := typed in
  let api_id_s := strip a in
  let api_hash_s := strip h in
  let phone_s := strip p in
  if negb (str_eqb api_id_s []) && negb (str_eqb api_hash_s [])
     && negb (str_eqb phone_s []) then
    match py_int api_id_s with
    | Some n =>
        let c := set (config st) (py "telegram_api_id") (VInt n) in
        let c := set c (py "telegram_api_hash") (VStr api_hash_s) in
        let c := set c (py "telegram_phone") (VStr phone_s) in
        {| api_id := VInt n; api_hash := VStr api_hash_s;
           phone := VStr phone_s; config := c |}
    | None => st
    end
  else st.

Definition load_from_config (st : state) : state :=
  {| api_id := get (config st) (py "telegram_api_id");
     api_hash := get (config st) (py "telegram_api_hash");
     phone := get (config st) (py "telegram_phone");
     config := config st |}.

Definition all_set (st : state) : bool :=
  forallb truthy [api_id st; api_hash st; phone st].

(** [getattr(message, 'views', 0) or 0] *)
Definition views_of (m : message) : Z :=
  match m with
  | Message (Some v) => v
  | _ => 0
  end.

(** The variables the loop of [get_views_async] updates. *)
Record loop_state := {
  total_views : Z;
  telegram_views_data : list view_result;
  trace : list event
}.

(** The body of the loop for one post and the reply to its call. *)
Definition loop_body (post_info : telegram_post) (r : reply) (ls : loop_state)
    : loop_state :=
  let call := GetMessages (tg_channel post_info) (tg_message_id post_info) in
  match r with
  | Returned m =>
      let views := views_of m in
      {| total_views := total_views ls + views;
         telegram_views_data :=
           telegram_views_data ls
             ++ [{| link := tg_original_link post_info; views := views |}];
         trace := trace ls ++ [call; Sleep (1 # 2)] |}
  | FloodWaitError seconds =>
      {| total_views := total_views ls;
         telegram_views_data := telegram_views_data ls;
         trace := trace ls ++ [call; Sleep (inject_Z seconds); Sleep (1 # 2)] |}
  | OtherError =>
      {| total_views := total_views ls;
         telegram_views_data :=
           telegram_views_data ls
             ++ [{| link := tg_original_link post_info; views := 0 |}];
         trace := trace ls ++ [call; Sleep (1 # 2)] |}
  end.

(** The loop; [replies n] is the reply to the call number [n] of the
    session, [i] the number of calls made so far. *)
Fixpoint loop (replies : nat -> reply) (i : nat)
    (telegram_posts : list telegram_post) (ls : loop_state) : loop_state :=
  match telegram_posts with
  | [] => ls
  | post_info :: rest =>
      loop replies (S i) rest (loop_body post_info (replies i) ls)
  end.

(** What a call of [get_views_async] comes to. *)
Record outcome := {
  result : Z * list view_result;
  events : list event;
  final : state
}.

(** The part of [get_views_async] that looks for the credentials. *)
Definition acquire_credentials (typed : pystr * pystr * pystr) (st : state)
    : state :=
  if negb (has_telegram_creds (config st)) then
    let st := load_from_config st in
    if negb (all_set st) then load_from_config (setup_credentials typed st)
    else st
  else st.

Definition get_views_async (typed : pystr * pystr * pystr) (connects : bool)
    (replies : nat -> reply) (st : state) (telegram_posts : list telegram_post)
    : outcome :=
  match telegram_posts with
  | [] => {| result := (0, []); events := []; final := st |}
  | _ =>
      let st := acquire_credentials typed st in
      if negb (all_set st) then
        {| result := (0, []); events := []; final := st |}
      else if negb connects then
        {| result := (0, []); events := [Connect]; final := st |}
      else
        let ls :=
          loop replies 0 telegram_posts
            {| total_views := 0; telegram_views_data := [];
               trace := [Connect] |} in
        {| result := (total_views ls, telegram_views_data ls);
           events := trace ls ++ [Disconnect]; final := st |}
  end.

(** [get_views]: [asyncio.run] of the above. *)
Definition get_views := get_views_async.

End TelegramParser.

(** ** OKParser *)

Module OKParser.

(** A parsed page: tags with their attributes and children, and the
    strings between them.  The BeautifulSoup object is the tag
    [[document]] at the root. *)
#[warnings="-register-all"]
Inductive node :=
| Tag (name : pystr) (attrs : gmap pystr pystr) (children : list node)
| Text (s : pystr).

(** [tag.descendants]: document order. *)
Fixpoint descendants (n : node) : list node :=
  match n with
  | Tag _ _ children => flat_map (fun c => c :: descendants c) children
  | Text _ => []
  end.

Definition strings_of (ns : list node) : list pystr :=
  omap (fun n => match n with Text s => Some s | Tag _ _ _ => None end) ns.

(** [elem.get_text()] *)
Definition get_text (elem : node) : pystr :=
  concat (strings_of (descendants elem)).

Definition attr (n : node) (key : pystr) : option pystr :=
  match n with
  | Tag _ a _ => a !! key
  | Text _ => None
  end.

(** [pattern.search(s)] for a pattern compiled with re.I. *)
Definition matches_i (pattern : regex) (s : pystr) : bool :=
  bool_decide (is_Some (search_flags true pattern s)).

(** The values of a class attribute: the runs without white space. *)
Definition class_values (s : pystr) : list pystr :=
  findall (PlusC (fun c => negb (is_space c))) s.

(** [' '.join(values)] *)
Fixpoint join_space (values : list pystr) : pystr :=
  match values with
  | [] => []
  | [v] => v
  | v :: rest => v ++ py " " ++ join_space rest
  end.

(** How [find_all] matches a pattern against an attribute: each value
    of the class attribute and then the values joined; the whole value
    of any other attribute. *)
Definition attr_matches (key : pystr) (pattern : regex) (n : node) : bool :=
  match attr n key with
  | None => false
  | Some v =>
      if str_eqb key (py "class") then
        existsb (matches_i pattern) (class_values v)
        || matches_i pattern (join_space (class_values v))
      else matches_i pattern v
  end.

(** [soup.find_all] with one attribute [key] and its pattern. *)
Definition find_all_attr (soup : node) (key : pystr) (pattern : regex)
    : list node :=
  List.filter (attr_matches key pattern) (descendants soup).

(** [soup.find_all(string=pattern)] *)
Definition find_all_string (soup : node) (pattern : regex) : list pystr :=
  List.filter (matches_i pattern) (strings_of (descendants soup)).

(** [soup.find_all(name)] *)
Definition find_all_name (soup : node) (name : pystr) : list node :=
  List.filter
    (fun n => match n with Tag t _ _ => str_eqb t name | Text _ => false end)
    (descendants soup).

(** [.] of a pattern: anything but a newline. *)
Definition dot (c : N) : bool := negb (c =? 10)%N.

(** view_selectors: the attribute and the pattern of each. *)
Definition view_selectors : list (pystr * regex) :=
  [ (py "class", str "view");
    (py "class", str "count");
    (py "class", str "visitors");
    (py "data-l", cat [StarC dot; str "view"; StarC dot]);
    (py "data-module", cat [StarC dot; str "like"; StarC dot]) ].

(** The words просмотр, лайк and участник. *)
Definition prosmotr : pystr := [1087; 1088; 1086; 1089; 1084; 1086; 1090; 1088]%N.
Definition layk : pystr := [1083; 1072; 1081; 1082]%N.
Definition uchastnik : pystr := [1091; 1095; 1072; 1089; 1090; 1085; 1080; 1082]%N.

(** r'\d+\s*(?:просмотр|лайк|участник)' *)
Definition text_pattern : regex :=
  cat [digits; StarC is_space; Alt (lit prosmotr) (Alt (lit layk) (lit uchastnik))].

Definition in_range (n : Z) : bool := (10 <? n) && (n <? 1000000).

(** [[int(n) for n in numbers if 10 < int(n) < 1000000]] *)
Definition plausible (numbers : list pystr) : list Z :=
  List.filter in_range (List.map int_of_digits numbers).

(** [max(l) if l else 0] *)
Definition max_or_zero (l : list Z) : Z :=
  match l with
  | [] => 0
  | x :: l' => fold_left Z.max l' x
  end.

Definition _extract_views_from_html (soup : node) : Z :=
  let all_numbers := [] in
  let all_numbers :=
    fold_left
      (fun all_numbers selector =>
         fold_left
           (fun all_numbers elem =>
              let text := get_text elem in
              let numbers :=
                findall digits (remove_char (ch ",") (remove_char (ch " ") text)) in
              all_numbers ++ plausible numbers)
           (find_all_attr soup (fst selector) (snd selector)) all_numbers)
      view_selectors all_numbers in
  let all_numbers :=
    fold_left
      (fun all_numbers text => all_numbers ++ plausible (findall digits text))
      (find_all_string soup text_pattern) all_numbers in
  let all_numbers :=
    fold_left
      (fun all_numbers meta =>
         let content := default [] (attr meta (py "content")) in
         if contains prosmotr (lower content) then
           all_numbers ++ plausible (findall digits content)
         else all_numbers)
      (find_all_name soup (py "meta")) all_numbers in
  max_or_zero all_numbers.

(** How [self.session.get(url)] ends; the page is the parsed text. *)
Inductive reply :=
| RequestError
| Response (status_code : Z) (soup : node).

(** The body of the loop of [get_views]. *)
Definition loop_body (ok_post : ok_post) (r : reply)
    (acc : Z * list view_result) : Z * list view_result :=
  let '(total_views, ok_views_data) := acc in
  let url := ok_original_link ok_post in
  let views :=
    match r with
    | Response status_code soup =>
        if status_code =? 200 then _extract_views_from_html soup else 0
    | RequestError => 0
    end in
  (total_views + views, ok_views_data ++ [{| link := url; views := views |}]).

(** [replies n] is the reply to the request number [n]. *)
Fixpoint loop (replies : nat -> reply) (i : nat) (ok_posts : list ok_post)
    (acc : Z * list view_result) : Z * list view_result :=
  match ok_posts with
  | [] => acc
  | p :: rest => loop replies (S i) rest (loop_body p (replies i) acc)
  end.

Definition get_views (replies : nat -> reply) (ok_posts : list ok_post)
    : Z * list view_result :=
  match ok_posts with
  | [] => (0, [])
  | _ => loop replies 0 ok_posts (0, [])
  end.

End OKParser.

(** ** main *)

(** Everything a run reads from outside. *)
Record world := {
  file : option (list pystr);          (* the lines of links.txt *)
  stored : gmap pystr value;           (* config.json *)
  vk_typed : pystr;                    (* the answer to the token prompt *)
  vk_reply : VKParser.vk_reply;
  tg_typed : pystr * pystr * pystr;    (* the answers to the three prompts *)
  tg_connects : bool;
  tg_replies : nat -> TelegramParser.reply;
  ok_replies : nat -> OKParser.reply
}.

(** What the run prints at its end. *)
Inductive report :=
| NoReport                 (* [main] returned before the fetchers *)
| TotalViews (total : Z)   (* "Всего просмотров", of this total *)
| NoData.                  (* "Не удалось получить данные по просмотрам" *)

(** A run: the subtotal of each fetcher that was called, and the report. *)
Record run := {
  vk_views : option Z;
  tg_views : option Z;
  ok_views : option Z;
  reported : report
}.

Definition main (w : world) : run :=
  let links := read_links_from_file (file w) in
  match links with
  | [] => {| vk_views := None; tg_views := None; ok_views := None;
             reported := NoReport |}
  | _ =>
      let posts_data := extract_post_ids links in
      let vk_posts := vk posts_data in
      let telegram_posts := telegram posts_data in
      let ok_posts := ok posts_data in
      let config := stored w in
      let total_views := 0 in
      let '(total_views, vk_views, config) :=
        match vk_posts with
        | [] => (total_views, None, config)
        | _ =>
            let '(vk_views, _, st) :=
              VKParser.get_views (vk_typed w) (vk_reply w)
                {| VKParser.api_token := VNone; VKParser.config := config |}
                vk_posts in
            (total_views + vk_views, Some vk_views, VKParser.config st)
        end in
      let '(total_views, tg_views) :=
        match telegram_posts with
        | [] => (total_views, None)
        | _ =>
            let out :=
              TelegramParser.get_views (tg_typed w) (tg_connects w) (tg_replies w)
                {| TelegramParser.api_id := VNone;
                   TelegramParser.api_hash := VNone;
                   TelegramParser.phone := VNone;
                   TelegramParser.config := config |}
                telegram_posts in
            let tg_views := fst (TelegramParser.result out) in
            (total_views + tg_views, Some tg_views)
        end in
      let '(total_views, ok_views) :=
        match ok_posts with
        | [] => (total_views, None)
        | _ =>
            let ok_views := fst (OKParser.get_views (ok_replies w) ok_posts) in
            (total_views + ok_views, Some ok_views)
        end in
      {| vk_views := vk_views; tg_views := tg_views; ok_views := ok_views;
         reported :=
           if 0 <? total_views then TotalViews total_views else NoData |}
  end.

(** * Vocabulary of the properties *)

(** ** The classifier *)

(** The three lists before the first link. *)
Definition no_posts : posts_data := {| vk := []; telegram := []; ok := [] |}.

(** What one link adds to the three lists. *)
Definition contribution (l : pystr) : posts_data := classify_link no_posts l.

(** The non-blank lines of the file, stripped: the links supplied. *)
Definition supplied (lines : list pystr) : list pystr :=
  List.map strip (List.filter (fun line => negb (str_eqb (strip line) [])) lines).

(** The owner id and the post id the first VK pattern finds in a link. *)
Definition first_vk_match (link : pystr) : option (pystr * pystr) :=
  match vk_patterns with
  | pattern :: _ =>
      match search pattern (lower link) with
      | Some m => Some (group m 1, group m 2)
      | None => None
      end
  | [] => None
  end.

(** The channel and the message id of a Telegram post. *)
Definition channel_and_id (p : telegram_post) : pystr * Z :=
  (tg_channel p, tg_message_id p).

(** ** The VK fetcher *)

Section VKParserVocabulary.
Import VKParser.

(** The result [get_views] records for one post, given post_views. *)
Definition vk_result (post_views : gmap pystr Z) (p : vk_post) : view_result :=
  {| link := vk_original_link p;
     views := default 0 (post_views !! vk_post_id p) |}.

(** response.items, the empty list when either key is missing. *)
Definition items_of (data : vk_data) : list vk_item :=
  match data_response data with
  | Some (Some items) => items
  | _ => []
  end.

End VKParserVocabulary.

(** ** The Telegram fetcher *)

Section TelegramParserVocabulary.
Import TelegramParser.

(** What the loop records for a post, by the reply to its one call:
    the counter of the message, nothing when the call was rate-limited,
    0 views after any other failure. *)
Definition recorded (p : telegram_post) (r : reply) : list view_result :=
  match r with
  | Returned m => [{| link := tg_original_link p; views := views_of m |}]
  | FloodWaitError _ => []
  | OtherError => [{| link := tg_original_link p; views := 0 |}]
  end.

(** What the loop does to the outside for a post: the one call, the
    wait the rate limit asks for, the half second after every post. *)
Definition calls_and_waits (p : telegram_post) (r : reply) : list event :=
  GetMessages (tg_channel p) (tg_message_id p) ::
  match r with
  | FloodWaitError seconds => [Sleep (inject_Z seconds); Sleep (1 # 2)]
  | _ => [Sleep (1 # 2)]
  end.

End TelegramParserVocabulary.

(** ** The OK fetcher *)

Section OKParserVocabulary.
Import OKParser.

(** The views the loop of [get_views] finds for one reply. *)
Definition page_views (r : OKParser.reply) : Z :=
  match r with
  | OKParser.Response status_code soup =>
      if status_code =? 200 then _extract_views_from_html soup else 0
  | RequestError => 0
  end.

(** The integers written in a string. *)
Definition numbers_in (s : pystr) : list Z :=
  List.map int_of_digits (findall digits s).

(** The candidate integers of a page, before the range filter: those in
    the text of the elements the selectors find (blanks and commas
    taken out), those in the strings that name views, likes or members,
    those in the meta tags whose content names views. *)
Definition candidates (soup : node) : list Z :=
  flat_map
    (fun selector =>
       flat_map
         (fun elem =>
            numbers_in (remove_char (ch ",") (remove_char (ch " ") (get_text elem))))
         (find_all_attr soup (fst selector) (snd selector)))
    view_selectors
  ++ flat_map numbers_in (find_all_string soup text_pattern)
  ++ flat_map
       (fun meta =>
          let content := default [] (attr meta (py "content")) in
          if contains prosmotr (lower content) then numbers_in content else [])
       (find_all_name soup (py "meta")).

End OKParserVocabulary.

(** ** The aggregator *)

(** The sum of the subtotals of the fetchers the run called. *)
Definition subtotal_sum (r : run) : Z :=
  default 0 (vk_views r) + default 0 (tg_views r) + default 0 (ok_views r).

(** No counter the remote services send is negative. *)
Definition counters_non_negative (w : world) : Prop :=
  (∀ status_code data,
     vk_reply w = VKParser.Response status_code (Some data) ->
     Forall (fun item => ∀ c, VKParser.item_views item = Some (Some c) -> 0 ≤ c)
       (items_of data))
  ∧ (∀ i v,
       tg_replies w i = TelegramParser.Returned (TelegramParser.Message (Some v)) ->
       0 ≤ v).

(** ** Example inputs *)

(** A new VKParser, no configuration stored. *)
Definition vk_fresh : VKParser.state :=
  {| VKParser.api_token := VNone; VKParser.config := ∅ |}.

(** Two posts are asked for; the reply has 100 views for -1_2 and
    leaves -3_4 out. *)
Definition vk_two_posts : list vk_post :=
  vk (extract_post_ids [py "vk.com/wall-1_2"; py "wall-3_4"]).

Definition vk_one_item : VKParser.vk_data :=
  {| VKParser.data_error := None;
     VKParser.data_response :=
       Some (Some [{| VKParser.item_owner_id := Some (-1);
                      VKParser.item_id := Some 2;
                      VKParser.item_views := Some (Some 100) |}]) |}.

Section TelegramExamples.
Import TelegramParser.

(** A new TelegramParser, no configuration stored; the user types the
    credentials; of three posts the second is rate-limited for 5
    seconds. *)
Definition tg_fresh : state :=
  {| api_id := VNone; api_hash := VNone; phone := VNone; config := ∅ |}.

Definition tg_typed_example : pystr * pystr * pystr :=
  (py "12345", py "0123456789abcdef", py "+79123456789").

Definition tg_three_posts : list telegram_post :=
  telegram (extract_post_ids [py "t.me/chan/1"; py "t.me/chan/2"; py "t.me/chan/3"]).

Definition tg_replies_example (i : nat) : reply :=
  match i with
  | 0%nat => Returned (Message (Some 10))
  | 1%nat => FloodWaitError 5
  | 2%nat => Returned (Message (Some 20))
  | _ => OtherError
  end.

End TelegramExamples.

Section OKExamples.
Import OKParser.

(** A page with the element of the example, a counter 5 and a counter
    2000000. *)
Definition ok_page_example : node :=
  Tag (py "[document]") ∅
    [Tag (py "html") ∅
       [Tag (py "body") ∅
          [Tag (py "i") {[ py "class" := py "badge-count" ]} [Text (py "5")];
           Tag (py "span") {[ py "class" := py "viewsCount" ]} [Text (py "1234")];
           Tag (py "b") {[ py "class" := py "all-visitors" ]} [Text (py "2000000")];
           Tag (py "p") ∅ [Text (py "5 of 2000000")]]]].

End OKExamples.

(** A run on three links: the VK post has 100 views, the Telegram post
    50, the third link is not recognised. *)
Definition world_example : world :=
  {| file := Some [py "vk.com/wall-1_2"; py "t.me/chan/9"; py "unknown://x"];
     stored := ∅;
     vk_typed := py "token";
     vk_reply :=
       VKParser.Response 200
         (Some {| VKParser.data_error := None;
                  VKParser.data_response :=
                    Some (Some [{| VKParser.item_owner_id := Some (-1);
                                   VKParser.item_id := Some 2;
                                   VKParser.item_views := Some (Some 100) |}]) |});
     tg_typed := (py "12345", py "0123456789abcdef", py "+79123456789");
     tg_connects := true;
     tg_replies := fun _ => TelegramParser.Returned (TelegramParser.Message (Some 50));
     ok_replies := fun _ => OKParser.RequestError |}.

(** * Vocabulary of the further properties *)

(** What it means for a pattern to match a word [w], taking the groups
    from [g] to [g']. *)
Inductive matches (ic : bool) : regex -> pystr -> groups -> groups -> Prop :=
| M_Chr c x g : chr_eqb ic c x = true -> matches ic (Chr c) [x] g g
| M_Cls (p : N -> bool) x g : p x = true -> matches ic (Cls p) [x] g g
| M_Eps g : matches ic Eps [] g g
| M_Seq r1 r2 w1 w2 g g1 g2 :
    matches ic r1 w1 g g1 -> matches ic r2 w2 g1 g2 ->
    matches ic (Seq r1 r2) (w1 ++ w2) g g2
| M_AltL r1 r2 w g g' : matches ic r1 w g g' -> matches ic (Alt r1 r2) w g g'
| M_AltR r1 r2 w g g' : matches ic r2 w g g' -> matches ic (Alt r1 r2) w g g'
| M_OptSome r w g g' : matches ic r w g g' -> matches ic (Opt r) w g g'
| M_OptNone r g : matches ic (Opt r) [] g g
| M_PlusC (p : N -> bool) w g :
    w ≠ [] -> forallb p w = true -> matches ic (PlusC p) w g g
| M_StarC (p : N -> bool) w g : forallb p w = true -> matches ic (StarC p) w g g
| M_Grp i r w g g' : matches ic r w g g' -> matches ic (Grp i r) w g (<[i := w]> g').

(** A string of one or more decimal digits. *)
Definition digit_string (d : pystr) : Prop := d ≠ [] ∧ forallb is_digit d = true.

(** An id of the form owner_post, the owner with or without a minus. *)
Definition composite_id (minus : bool) (id : pystr) : Prop :=
  ∃ owner post,
    id = (if minus then py "-" else []) ++ owner ++ py "_" ++ post
    ∧ digit_string owner ∧ digit_string post.

(** [^/\?] *)
Definition name_char (c : N) : bool := negb ((c =? ch "/")%N || (c =? ch "?")%N).

(** The group and the topic of an OK post. *)
Definition group_and_topic (p : ok_post) : pystr * pystr :=
  (ok_group_name p, ok_topic_id p).

(** The markers [extract_post_ids] looks for in the lowercased link. *)
Definition vk_marker (l : pystr) : bool :=
  contains (py "vk.com") (lower l) || startswith (py "wall") (lower l).
Definition telegram_marker (l : pystr) : bool :=
  contains (py "t.me") (lower l) || contains (py "telegram.me") (lower l).
Definition ok_marker (l : pystr) : bool := contains (py "ok.ru") (lower l).

Section VKMoreVocabulary.
Import VKParser.

(** The key and the count [get_views] reads off one item. *)
Definition item_key (post : vk_item) : pystr :=
  str_of_int (default 0 (item_owner_id post)) ++ py "_"
    ++ str_of_int (default 0 (item_id post)).

Definition item_count (post : vk_item) : Z :=
  match item_views post with
  | Some (Some count) => count
  | _ => 0
  end.

End VKMoreVocabulary.

Section TelegramMoreVocabulary.
Import TelegramParser.

(** Whether a reply is the rate-limit signal. *)
Definition rate_limited (r : reply) : bool :=
  match r with
  | FloodWaitError _ => true
  | _ => false
  end.

(** The seconds the fetcher sleeps, all waits added up. *)
Definition slept (evs : list event) : Q :=
  fold_right (fun e acc => match e with Sleep q => (q + acc)%Q | _ => acc end) 0%Q evs.

(** The seconds the rate-limit replies to the first [n] calls ask for. *)
Definition asked_to_wait (replies : nat -> reply) (n : nat) : Z :=
  fold_right
    (fun i acc => match replies i with FloodWaitError s => s + acc | _ => acc end)
    0 (seq 0 n).

(** The calls of [get_messages] among the events. *)
Definition calls (evs : list event) : list (pystr * Z) :=
  omap (fun e => match e with GetMessages c i => Some (c, i) | _ => None end) evs.

End TelegramMoreVocabulary.

Section TelegramCredentialsVocabulary.
Import TelegramParser.

(** The API id [setup_credentials] accepts: all three answers are there
    and the first one is a number. *)
Definition accepted_api_id (typed : pystr * pystr * pystr) : option Z :=
  let '(a, h, p) := typed in
  if negb (str_eqb (strip a) []) && negb (str_eqb (strip h) [])
     && negb (str_eqb (strip p) []) then py_int (strip a)
  else None.

End TelegramCredentialsVocabulary.

(** Two configurations with the same Telegram credentials. *)
Definition same_telegram_keys (c1 c2 : gmap pystr value) : Prop :=
  get c1 (py "telegram_api_id") = get c2 (py "telegram_api_id")
  ∧ get c1 (py "telegram_api_hash") = get c2 (py "telegram_api_hash")
  ∧ get c1 (py "telegram_phone") = get c2 (py "telegram_phone").

(** The world [w] with other answers on the VK side. *)
Definition with_vk (w : world) (typed : pystr) (reply : VKParser.vk_reply) : world :=
  {| file := file w; stored := stored w; vk_typed := typed; vk_reply := reply;
     tg_typed := tg_typed w; tg_connects := tg_connects w;
     tg_replies := tg_replies w; ok_replies := ok_replies w |}.

(** A VKParser that has not read the token config.json holds. *)
Definition vk_stored : VKParser.state :=
  {| VKParser.api_token := VNone;
     VKParser.config := {[ py "vk_token" := VStr (py "token") ]} |}.

(** A TelegramParser that has not read the credentials config.json holds. *)
Definition tg_stored : TelegramParser.state :=
  {| TelegramParser.api_id := VNone; TelegramParser.api_hash := VNone;
     TelegramParser.phone := VNone;
     TelegramParser.config :=
       {[ py "telegram_api_id" := VInt 12345;
          py "telegram_api_hash" := VStr (py "0123456789abcdef");
          py "telegram_phone" := VStr (py "+79123456789") ]} |}.

(** * Properties *)

(** ** The classifier *)

Section Classifier.

(** Each extraction appends to the list it is given, at most one post,
    which carries the original link. *)

Lemma vk_pattern_loop_app patterns idx link original vk_posts :
  vk_pattern_loop idx patterns link original vk_posts
  = vk_posts ++ vk_pattern_loop idx patterns link original [].
Proof.
  revert idx. induction patterns as [|p ps IH]; intros idx; simpl.
  - by rewrite app_nil_r.
  - destruct (search p link); [done | apply IH].
Qed.

Lemma vk_pattern_loop_one patterns idx link original :
  vk_pattern_loop idx patterns link original [] = []
  ∨ ∃ id, vk_pattern_loop idx patterns link original []
          = [{| vk_post_id := id; vk_original_link := original |}].
Proof.
  revert idx. induction patterns as [|p ps IH]; intros idx; simpl.
  - by left.
  - destruct (search p link); [right; eauto | apply IH].
Qed.

Lemma telegram_pattern_loop_app patterns clean original telegram_posts :
  telegram_pattern_loop patterns clean original telegram_posts
  = telegram_posts ++ telegram_pattern_loop patterns clean original [].
Proof.
  induction patterns as [|p ps IH]; simpl.
  - by rewrite app_nil_r.
  - destruct (search p clean); [done | apply IH].
Qed.

Lemma telegram_pattern_loop_one patterns clean original :
  telegram_pattern_loop patterns clean original [] = []
  ∨ ∃ c n, telegram_pattern_loop patterns clean original []
           = [{| tg_channel := c; tg_message_id := n;
                 tg_original_link := original |}].
Proof.
  induction patterns as [|p ps IH]; simpl.
  - by left.
  - destruct (search p clean); [right; eauto | apply IH].
Qed.

Lemma ok_pattern_loop_app patterns link original ok_posts :
  ok_pattern_loop patterns link original ok_posts
  = ok_posts ++ ok_pattern_loop patterns link original [].
Proof.
  induction patterns as [|p ps IH]; simpl.
  - by rewrite app_nil_r.
  - destruct (search p link); [done | apply IH].
Qed.

Lemma ok_pattern_loop_one patterns link original :
  ok_pattern_loop patterns link original [] = []
  ∨ ∃ g t, ok_pattern_loop patterns link original []
           = [{| ok_group_name := g; ok_topic_id := t;
                 ok_original_link := original |}].
Proof.
  induction patterns as [|p ps IH]; simpl.
  - by left.
  - destruct (search p link); [right; eauto | apply IH].
Qed.

Lemma contribution_single l : extract_post_ids [l] = contribution l.
Proof. reflexivity. Qed.

Lemma classify_link_app acc l :
  classify_link acc l
  = {| vk := vk acc ++ vk (contribution l);
       telegram := telegram acc ++ telegram (contribution l);
       ok := ok acc ++ ok (contribution l) |}.
Proof.
  unfold contribution, classify_link.
  destruct (contains (py "vk.com") (lower l) || startswith (py "wall") (lower l)).
  { simpl. unfold _extract_vk_post. rewrite vk_pattern_loop_app.
    by rewrite !app_nil_r. }
  destruct (contains (py "t.me") (lower l) || contains (py "telegram.me") (lower l)).
  { simpl. unfold _extract_telegram_post. rewrite telegram_pattern_loop_app.
    by rewrite !app_nil_r. }
  destruct (contains (py "ok.ru") (lower l)).
  { simpl. unfold _extract_ok_post. rewrite ok_pattern_loop_app.
    by rewrite !app_nil_r. }
  destruct acc; simpl. by rewrite !app_nil_r.
Qed.

Lemma fold_classify links acc :
  fold_left classify_link links acc
  = {| vk := vk acc ++ flat_map (fun l => vk (contribution l)) links;
       telegram := telegram acc ++ flat_map (fun l => telegram (contribution l)) links;
       ok := ok acc ++ flat_map (fun l => ok (contribution l)) links |}.
Proof.
  revert acc. induction links as [|l links IH]; intros acc; simpl.
  - destruct acc; simpl. by rewrite !app_nil_r.
  - rewrite IH, classify_link_app. simpl. by rewrite <- !app_assoc.
Qed.

Lemma extract_post_ids_flat links :
  extract_post_ids links
  = {| vk := flat_map (fun l => vk (contribution l)) links;
       telegram := flat_map (fun l => telegram (contribution l)) links;
       ok := flat_map (fun l => ok (contribution l)) links |}.
Proof. unfold extract_post_ids. by rewrite fold_classify. Qed.

(** The shapes a contribution can have. *)
Lemma contribution_cases l :
  contribution l = no_posts
  ∨ (∃ id, contribution l
      = {| vk := [{| vk_post_id := id; vk_original_link := l |}];
           telegram := []; ok := [] |})
  ∨ (∃ c n, contribution l
      = {| vk := [];
           telegram := [{| tg_channel := c; tg_message_id := n;
                           tg_original_link := l |}];
           ok := [] |})
  ∨ (∃ g t, contribution l
      = {| vk := []; telegram := [];
           ok := [{| ok_group_name := g; ok_topic_id := t;
                     ok_original_link := l |}] |}).
Proof.
  unfold contribution, classify_link. cbn [vk telegram ok no_posts].
  destruct (contains (py "vk.com") (lower l) || startswith (py "wall") (lower l)).
  { unfold _extract_vk_post.
    destruct (vk_pattern_loop_one vk_patterns 0 (lower l) l) as [-> | [id ->]];
      [by left | right; left; by exists id]. }
  destruct (contains (py "t.me") (lower l) || contains (py "telegram.me") (lower l)).
  { unfold _extract_telegram_post.
    destruct (telegram_pattern_loop_one telegram_patterns (clean_link (lower l)) l)
      as [-> | (c & n & ->)];
      [by left | right; right; left; by exists c, n]. }
  destruct (contains (py "ok.ru") (lower l)).
  { unfold _extract_ok_post.
    destruct (ok_pattern_loop_one ok_patterns (lower l) l) as [-> | (g & t & ->)];
      [by left | right; right; right; by exists g, t]. }
  by left.
Qed.

Lemma flat_map_sublist {A} (f : pystr -> list A) (key : A -> pystr) links :
  (∀ l, f l = [] ∨ ∃ a, f l = [a] ∧ key a = l) ->
  List.map key (flat_map f links) `sublist_of` links.
Proof.
  intros Hf. induction links as [|l links IH]; simpl.
  - constructor.
  - destruct (Hf l) as [-> | (a & -> & Ha)]; simpl.
    + by apply sublist_cons.
    + rewrite Ha. by apply sublist_skip.
Qed.

End Classifier.

(** C9: every input link contributes a post to at most one of the three
    lists; each list is the concatenation, in input order, of what the
    single links contribute; and a post's original link is, character
    for character, the link it was made from (so the original links of
    each list form a subsequence of the input). *)
Theorem classification_keeps_links (links : list pystr) :
  let out := extract_post_ids links in
  (vk out = flat_map (fun l => vk (extract_post_ids [l])) links
   ∧ telegram out = flat_map (fun l => telegram (extract_post_ids [l])) links
   ∧ ok out = flat_map (fun l => ok (extract_post_ids [l])) links)
  ∧ (∀ l, let one := extract_post_ids [l] in
       (length (vk one) + length (telegram one) + length (ok one) ≤ 1)%nat
       ∧ (∀ p, p ∈ vk one -> vk_original_link p = l)
       ∧ (∀ p, p ∈ telegram one -> tg_original_link p = l)
       ∧ (∀ p, p ∈ ok one -> ok_original_link p = l))
  ∧ (List.map vk_original_link (vk out) `sublist_of` links
     ∧ List.map tg_original_link (telegram out) `sublist_of` links
     ∧ List.map ok_original_link (ok out) `sublist_of` links).
Proof.
  cbv zeta. split; [| split].
  - rewrite extract_post_ids_flat. cbn [vk telegram ok]. done.
  - intros l. rewrite contribution_single.
    destruct (contribution_cases l)
      as [-> | [[id ->] | [(c & n & ->) | (g & t & ->)]]];
      cbn [vk telegram ok no_posts length];
      (split; [lia |]);
      repeat split; intros p Hp;
      try (by apply elem_of_nil in Hp);
      apply list_elem_of_singleton in Hp; by subst p.
  - rewrite extract_post_ids_flat. cbn [vk telegram ok].
    repeat split; apply flat_map_sublist; intros l;
      destruct (contribution_cases l)
        as [-> | [[id ->] | [(c & n & ->) | (g & t & ->)]]];
      cbn [vk telegram ok no_posts]; eauto.
Qed.

(** ** The cap on the number of links *)

Lemma read_links_take lines :
  read_links_from_file (Some lines) = take max_links (supplied lines).
Proof.
  unfold read_links_from_file. fold (supplied lines).
  destruct (supplied lines) as [|l ls] eqn:E; [done |].
  destruct (Nat.ltb_spec max_links (length (l :: ls))) as [H | H]; [done |].
  by rewrite take_ge.
Qed.

(** C1, as the code has it: the cap of 100 is applied where the links
    are read.  Of the non-blank lines of the file exactly the first 100
    reach the classifier, and the three lists hold what these
    contribute, in order; the lines after them contribute nothing.
    [extract_post_ids] classifies every link it is given. *)
Theorem first_100_links_classified (lines : list pystr) :
  let links := read_links_from_file (Some lines) in
  let out := extract_post_ids links in
  links = take 100 (supplied lines)
  ∧ length links = Nat.min 100 (length (supplied lines))
  ∧ vk out = flat_map (fun l => vk (extract_post_ids [l])) (take 100 (supplied lines))
  ∧ telegram out
    = flat_map (fun l => telegram (extract_post_ids [l])) (take 100 (supplied lines))
  ∧ ok out = flat_map (fun l => ok (extract_post_ids [l])) (take 100 (supplied lines)).
Proof.
  cbv zeta. rewrite read_links_take. change max_links with 100%nat.
  split; [done |]. split; [apply length_take |].
  rewrite extract_post_ids_flat. cbn [vk telegram ok]. done.
Qed.

(** C1 fails for the classifier taken alone: given 101 links it
    classifies all 101. *)
Lemma extract_post_ids_has_no_cap :
  length (replicate 101 (py "wall-1_2")) = 101%nat
  ∧ length (vk (extract_post_ids (replicate 101 (py "wall-1_2")))) = 101%nat
  ∧ vk (extract_post_ids (replicate 101 (py "wall-1_2")))
    ≠ vk (extract_post_ids (take 100 (replicate 101 (py "wall-1_2")))).
Proof.
  split; [reflexivity |]. split; [vm_compute; reflexivity |].
  intros H. apply (f_equal length) in H. vm_compute in H. discriminate.
Qed.

(** ** VK links *)

(** When the first pattern matches, the post id is the owner id with a
    minus sign put in front, an underscore and the post id. *)
Lemma first_vk_pattern_minus pattern rest link original vk_posts m :
  search pattern link = Some m ->
  vk_pattern_loop 0 (pattern :: rest) link original vk_posts
  = vk_posts ++ [{| vk_post_id :=
                      (if startswith (py "-") (group m 1) then group m 1
                       else py "-" ++ group m 1) ++ py "_" ++ group m 2;
                    vk_original_link := original |}]
  ∧ startswith (py "-")
      ((if startswith (py "-") (group m 1) then group m 1
        else py "-" ++ group m 1) ++ py "_" ++ group m 2) = true.
Proof.
  intros Hm. split.
  - simpl. by rewrite Hm.
  - destruct (startswith (py "-") (group m 1)) eqn:E; [| reflexivity].
    destruct (group m 1) as [|c s]; [done |]. exact E.
Qed.

(** C5: each of the links wall-123_456, vk.com/wall123_456 and
    vk.com/club?w=wall-123_456 is classified as one VK post, whose id
    is -123_456: the first pattern finds the owner id 123 and the post
    id 456 in it, and the owner id is given its leading minus.  A post
    made by the first pattern always has an id that starts with a
    minus. *)
Theorem vk_url_variants :
  Forall
    (fun l =>
       extract_post_ids [py l]
       = {| vk := [{| vk_post_id := py "-123_456"; vk_original_link := py l |}];
            telegram := []; ok := [] |}
       ∧ first_vk_match (py l) = Some (py "123", py "456"))
    ["wall-123_456"; "vk.com/wall123_456"; "vk.com/club?w=wall-123_456"]%string
  ∧ py "-123_456" = py "-123" ++ py "_" ++ py "456"
  ∧ ∀ link original vk_posts id,
      first_vk_match link = Some id ->
      ∃ post_id,
        _extract_vk_post (lower link) original vk_posts
        = vk_posts ++ [{| vk_post_id := post_id; vk_original_link := original |}]
        ∧ startswith (py "-") post_id = true.
Proof.
  split; [| split].
  - repeat constructor; vm_compute; reflexivity.
  - reflexivity.
  - intros link original vk_posts id. unfold first_vk_match, _extract_vk_post.
    destruct vk_patterns as [|pattern rest] eqn:E; [done |].
    destruct (search pattern (lower link)) as [m|] eqn:Hm; [| done].
    intros _. eexists.
    exact (first_vk_pattern_minus pattern rest (lower link) original vk_posts m Hm).
Qed.

(** ** Telegram links *)

Lemma split_cons sep c s :
  split sep (c :: s)
  = (if (c =? sep)%N then ([], (split sep s).1 :: (split sep s).2)
     else (c :: (split sep s).1, (split sep s).2)).
Proof. simpl. by destruct (split sep s). Qed.

Lemma clean_link_cons c s :
  clean_link (c :: s)
  = if ((c =? ch "?") || (c =? ch "#"))%N then [] else c :: clean_link s.
Proof.
  unfold clean_link. rewrite split_cons.
  destruct (c =? ch "?")%N; [done |]. cbn [fst orb].
  rewrite split_cons. by destruct (c =? ch "#")%N.
Qed.

(** Whatever follows a question mark or a hash sign is dropped. *)
Lemma clean_link_cut sep link rest :
  sep = ch "?" ∨ sep = ch "#" ->
  clean_link (link ++ sep :: rest) = clean_link link.
Proof.
  intros Hsep. induction link as [|c s IH].
  - simpl. rewrite clean_link_cons. by destruct Hsep as [-> | ->].
  - simpl. rewrite !clean_link_cons. by rewrite IH.
Qed.

Lemma telegram_loop_original patterns clean o1 o2 :
  List.map channel_and_id (telegram_pattern_loop patterns clean o1 [])
  = List.map channel_and_id (telegram_pattern_loop patterns clean o2 []).
Proof.
  induction patterns as [|p ps IH]; simpl; [done |].
  by destruct (search p clean).
Qed.

(** C6: the extraction of a Telegram post works on the link cut at its
    first question mark or hash sign, so a link followed by a query
    string or a fragment gives the channel and the message id of the
    link alone; t.me/name/42?x=1 gives the channel name and the id 42,
    as t.me/name/42 does. *)
Theorem telegram_query_and_fragment_dropped (link rest : pystr) :
  (∀ original original',
     List.map channel_and_id
       (_extract_telegram_post (link ++ ch "?" :: rest) original [])
     = List.map channel_and_id (_extract_telegram_post link original' [])
     ∧ List.map channel_and_id
         (_extract_telegram_post (link ++ ch "#" :: rest) original [])
       = List.map channel_and_id (_extract_telegram_post link original' []))
  ∧ List.map channel_and_id
      (telegram (extract_post_ids [py "t.me/name/42?x=1"]))
    = [(py "name", 42)]
  ∧ List.map channel_and_id (telegram (extract_post_ids [py "t.me/name/42"]))
    = [(py "name", 42)].
Proof.
  split; [| split; vm_compute; reflexivity].
  intros original original'. unfold _extract_telegram_post.
  rewrite !clean_link_cut by auto.
  split; apply telegram_loop_original.
Qed.

(** ** Totals and results *)

Lemma sum_views_app a b : sum_views (a ++ b) = sum_views a + sum_views b.
Proof. induction a as [|r a IH]; simpl; lia. Qed.

(** ** The VK fetcher *)

Section VK.
Import VKParser.

Lemma collect_views_from post_views vk_posts total data :
  fold_left
    (fun '(total_views, vk_views_data) vk_post =>
       let post_id := vk_post_id vk_post in
       let views := default 0 (post_views !! post_id) in
       (total_views + views,
        vk_views_data ++ [{| link := vk_original_link vk_post; views := views |}]))
    vk_posts (total, data)
  = (total + sum_views (List.map (vk_result post_views) vk_posts),
     data ++ List.map (vk_result post_views) vk_posts).
Proof.
  revert total data. induction vk_posts as [|p ps IH]; intros total data; simpl.
  - f_equal; [lia | by rewrite app_nil_r].
  - rewrite IH. f_equal; [lia | by rewrite <- app_assoc].
Qed.

Lemma collect_views_map post_views vk_posts :
  collect_views post_views vk_posts
  = (sum_views (List.map (vk_result post_views) vk_posts),
     List.map (vk_result post_views) vk_posts).
Proof. unfold collect_views. by rewrite collect_views_from. Qed.

(** C3: after a successful reply (the request went through, the status
    is no error status, the body is a JSON object without an error
    key), the fetcher returns one result per input post, in input
    order, whose views are what post_views holds for the post's id and
    0 when it holds nothing for it; the total is the sum of the views
    of these results. *)
Theorem vk_views_by_lookup typed status_code data st (vk_posts : list vk_post) :
  truthy (api_token (acquire_token typed st)) = true ->
  http_error status_code = false ->
  data_error data = None ->
  let post_views := post_views_of (items_of data) in
  let out := (get_views typed (Response status_code (Some data)) st vk_posts).1 in
  out.2 = List.map (vk_result post_views) vk_posts
  ∧ length out.2 = length vk_posts
  ∧ List.map link out.2 = List.map vk_original_link vk_posts
  ∧ out.1 = sum_views out.2
  ∧ (∀ i p, vk_posts !! i = Some p ->
       ∃ r, out.2 !! i = Some r
            ∧ link r = vk_original_link p
            ∧ views r = default 0 (post_views !! vk_post_id p)
            ∧ (post_views !! vk_post_id p = None -> views r = 0)).
Proof.
  intros Htoken Hstatus Herror. cbv zeta.
  assert (Hout : (get_views typed (Response status_code (Some data)) st vk_posts).1
                 = (sum_views (List.map (vk_result (post_views_of (items_of data))) vk_posts),
                    List.map (vk_result (post_views_of (items_of data))) vk_posts)).
  { unfold get_views. destruct vk_posts as [|p ps]; [done |].
    rewrite Htoken. cbn [negb fst]. unfold fetch.
    rewrite Hstatus, Herror. by rewrite collect_views_map. }
  rewrite Hout. cbn [fst snd]. split; [done |].
  split; [by rewrite length_map |].
  split; [by rewrite List.map_map |].
  split; [done |].
  intros i p Hp. exists (vk_result (post_views_of (items_of data)) p).
  split.
  - change (List.map ?f ?l) with (f <$> l). by rewrite list_lookup_fmap, Hp.
  - repeat split. intros Hnone. simpl. by rewrite Hnone.
Qed.

(** C7: for a batch that is not empty, when the request fails in
    transport, or the status is an error status (the ones
    raise_for_status raises for), or the JSON object of the reply has
    an error key, [get_views] returns 0 and no results. *)
Theorem vk_failure_is_total typed reply st (vk_posts : list vk_post) :
  vk_posts ≠ [] ->
  reply = TransportError
  ∨ (∃ status_code json,
       reply = Response status_code json ∧ http_error status_code = true)
  ∨ (∃ status_code data,
       reply = Response status_code (Some data) ∧ is_Some (data_error data)) ->
  (get_views typed reply st vk_posts).1 = (0, []).
Proof.
  intros Hne Hfail. unfold get_views.
  destruct vk_posts as [|p ps]; [done |].
  destruct (negb (truthy (api_token (acquire_token typed st)))); [done |].
  cbn [fst]. unfold fetch.
  destruct Hfail as [-> | [(s & j & -> & Hs) | (s & d & -> & [e He])]].
  - done.
  - by rewrite Hs.
  - rewrite He. by destruct (http_error s).
Qed.

End VK.

(** The lookup at work: the post the reply leaves out gets 0 views and
    the total is that of the other post. *)
Lemma vk_views_by_lookup_witness :
  let out :=
    (VKParser.get_views (py "token")
       (VKParser.Response 200 (Some vk_one_item)) vk_fresh vk_two_posts).1 in
  out.2 = [{| link := py "vk.com/wall-1_2"; views := 100 |};
           {| link := py "wall-3_4"; views := 0 |}]
  ∧ out.1 = 100.
Proof.
  destruct (vk_views_by_lookup (py "token") 200 vk_one_item vk_fresh vk_two_posts)
    as (H1 & _ & _ & H4 & _); [vm_compute; reflexivity ..|].
  cbv zeta. rewrite H4, H1. split; vm_compute; reflexivity.
Defined.

(** A reply with status 403 gives 0 and no results. *)
Lemma vk_failure_is_total_witness :
  (VKParser.get_views (py "token") (VKParser.Response 403 None)
     vk_fresh vk_two_posts).1 = (0, []).
Proof.
  apply vk_failure_is_total.
  - vm_compute. discriminate.
  - right; left. exists 403, None. split; reflexivity.
Defined.

(** ** The Telegram fetcher *)

Section Telegram.
Import TelegramParser.

Lemma loop_body_spec p r ls :
  loop_body p r ls
  = {| total_views := total_views ls + sum_views (recorded p r);
       telegram_views_data := telegram_views_data ls ++ recorded p r;
       trace := trace ls ++ calls_and_waits p r |}.
Proof.
  destruct r as [m | s |]; unfold loop_body, recorded, calls_and_waits; simpl;
    f_equal; try lia; by rewrite ?app_nil_r.
Qed.

Lemma loop_spec replies posts i ls :
  loop replies i posts ls
  = {| total_views :=
         total_views ls
         + sum_views (concat (imap (fun k p => recorded p (replies (i + k)%nat)) posts));
       telegram_views_data :=
         telegram_views_data ls
         ++ concat (imap (fun k p => recorded p (replies (i + k)%nat)) posts);
       trace :=
         trace ls
         ++ concat (imap (fun k p => calls_and_waits p (replies (i + k)%nat)) posts) |}.
Proof.
  revert i ls. induction posts as [|p ps IH]; intros i ls.
  - destruct ls; simpl. f_equal; [lia | by rewrite app_nil_r ..].
  - cbn [loop]. rewrite IH, loop_body_spec. cbn [total_views telegram_views_data trace].
    rewrite !imap_cons. cbn [concat]. rewrite Nat.add_0_r.
    rewrite (imap_ext (fun k p0 => recorded p0 (replies (S i + k)%nat))
               ((fun k p0 => recorded p0 (replies (i + k)%nat)) ∘ S) ps)
      by (intros; simpl; f_equal; f_equal; lia).
    rewrite (imap_ext (fun k p0 => calls_and_waits p0 (replies (S i + k)%nat))
               ((fun k p0 => calls_and_waits p0 (replies (i + k)%nat)) ∘ S) ps)
      by (intros; simpl; f_equal; f_equal; lia).
    rewrite sum_views_app. f_equal; [lia | by rewrite app_assoc ..].
Qed.

Lemma get_views_async_sum typed connects replies st posts :
  (result (get_views_async typed connects replies st posts)).1
  = sum_views (result (get_views_async typed connects replies st posts)).2.
Proof.
  unfold get_views_async. destruct posts as [|p ps]; [done |].
  destruct (negb (all_set (acquire_credentials typed st))); [done |].
  destruct (negb connects); [done |].
  cbn [result fst snd]. rewrite loop_spec. simpl. done.
Qed.

End Telegram.

Section TelegramResults.
Import TelegramParser.

(** C2: once the credentials are there and the session is connected,
    the fetcher calls [get_messages] once for each post, in order.  A
    rate-limit reply makes it sleep for the seconds the reply names and
    go on to the next post: nothing is recorded for that post and the
    total does not change.  Any other failure records 0 views for the
    link.  So with three posts, the first and the third answered with
    10 and 20 views and the second rate-limited, the results are those
    of the first and the third post and the total is 30. *)
Theorem telegram_rate_limit_skips_post typed replies st
    (telegram_posts : list telegram_post) :
  telegram_posts ≠ [] ->
  all_set (acquire_credentials typed st) = true ->
  let out := get_views_async typed true replies st telegram_posts in
  (result out).2 = concat (imap (fun i p => recorded p (replies i)) telegram_posts)
  ∧ (result out).1 = sum_views (result out).2
  ∧ events out
    = Connect :: concat (imap (fun i p => calls_and_waits p (replies i)) telegram_posts)
        ++ [Disconnect]
  ∧ (∀ p seconds,
       recorded p (FloodWaitError seconds) = []
       ∧ calls_and_waits p (FloodWaitError seconds)
         = [GetMessages (tg_channel p) (tg_message_id p);
            Sleep (inject_Z seconds); Sleep (1 # 2)]
       ∧ recorded p OtherError = [{| link := tg_original_link p; views := 0 |}])
  ∧ (∀ p1 p2 p3 seconds,
       telegram_posts = [p1; p2; p3] ->
       replies 0%nat = Returned (Message (Some 10)) ->
       replies 1%nat = FloodWaitError seconds ->
       replies 2%nat = Returned (Message (Some 20)) ->
       result out = (30, [{| link := tg_original_link p1; views := 10 |};
                          {| link := tg_original_link p3; views := 20 |}])
       ∧ Sleep (inject_Z seconds) ∈ events out).
Proof.
  intros Hne Hcreds. cbv zeta.
  assert (Hout : get_views_async typed true replies st telegram_posts
    = {| result :=
           (sum_views (concat (imap (fun i p => recorded p (replies i)) telegram_posts)),
            concat (imap (fun i p => recorded p (replies i)) telegram_posts));
         events :=
           Connect :: concat (imap (fun i p => calls_and_waits p (replies i)) telegram_posts)
             ++ [Disconnect];
         final := acquire_credentials typed st |}).
  { unfold get_views_async. destruct telegram_posts as [|p ps]; [done |].
    rewrite Hcreds. cbn [negb]. rewrite loop_spec.
    cbn [total_views telegram_views_data trace app Nat.add]. reflexivity. }
  rewrite Hout. cbn [result events fst snd].
  split; [done |]. split; [done |]. split; [done |]. split; [done |].
  intros p1 p2 p3 seconds -> H0 H1 H2.
  cbn [imap concat]. unfold compose. rewrite H0, H1, H2.
  split; [reflexivity |].
  cbn [calls_and_waits recorded app]. set_solver.
Qed.

(** The three posts with 10 views, a rate limit of 5 seconds, 20 views. *)
Lemma telegram_rate_limit_skips_post_witness :
  let out := get_views_async tg_typed_example true tg_replies_example tg_fresh
               tg_three_posts in
  result out = (30, [{| link := py "t.me/chan/1"; views := 10 |};
                     {| link := py "t.me/chan/3"; views := 20 |}])
  ∧ Sleep (inject_Z 5) ∈ events out.
Proof.
  destruct (telegram_rate_limit_skips_post tg_typed_example tg_replies_example
              tg_fresh tg_three_posts) as (_ & _ & _ & _ & H);
    [vm_compute; discriminate | vm_compute; reflexivity |].
  exact (H _ _ _ 5 eq_refl eq_refl eq_refl eq_refl).
Defined.

End TelegramResults.

(** ** The OK fetcher *)

Section OK.
Import OKParser.

Lemma ok_loop_spec replies posts i total data :
  OKParser.loop replies i posts (total, data)
  = (total + sum_views (imap (fun k p => {| link := ok_original_link p;
                                            views := page_views (replies (i + k)%nat) |}) posts),
     data ++ imap (fun k p => {| link := ok_original_link p;
                                 views := page_views (replies (i + k)%nat) |}) posts).
Proof.
  revert i total data. induction posts as [|p ps IH]; intros i total data.
  - simpl. f_equal; [lia | by rewrite app_nil_r].
  - cbn [OKParser.loop]. unfold OKParser.loop_body. fold (page_views (replies i)).
    rewrite IH, imap_cons, Nat.add_0_r.
    rewrite (imap_ext (fun k p0 => {| link := ok_original_link p0;
                                      views := page_views (replies (S i + k)%nat) |})
               ((fun k p0 => {| link := ok_original_link p0;
                                views := page_views (replies (i + k)%nat) |}) ∘ S) ps)
      by (intros; simpl; do 3 f_equal; lia).
    simpl. f_equal; [lia | by rewrite <- app_assoc].
Qed.

Lemma ok_get_views_sum replies posts :
  (OKParser.get_views replies posts).1
  = sum_views (OKParser.get_views replies posts).2.
Proof.
  unfold OKParser.get_views. destruct posts as [|p ps]; [done |].
  rewrite ok_loop_spec. done.
Qed.

End OK.

(** C10: whatever the batch and whatever the replies, credentials and
    connection, the total the Telegram fetcher returns is the sum of
    the views of the results it returns, and so is the total of the OK
    fetcher. *)
Theorem totals_are_sums_of_results :
  (∀ typed connects replies st telegram_posts,
     let out := TelegramParser.get_views typed connects replies st telegram_posts in
     (TelegramParser.result out).1 = sum_views (TelegramParser.result out).2)
  ∧ (∀ replies ok_posts,
       (OKParser.get_views replies ok_posts).1
       = sum_views (OKParser.get_views replies ok_posts).2).
Proof.
  split.
  - intros. apply get_views_async_sum.
  - apply ok_get_views_sum.
Qed.

(** ** The heuristic of the OK fetcher *)

Section Heuristic.
Import OKParser.

Lemma fold_left_app_flat_map {A B} (f : A -> list B) l acc :
  fold_left (fun acc x => acc ++ f x) l acc = acc ++ flat_map f l.
Proof.
  revert acc. induction l as [|x l IH]; intros acc; simpl.
  - by rewrite app_nil_r.
  - by rewrite IH, <- app_assoc.
Qed.

Lemma fold_left_nested_flat_map {A B C} (g : A -> list B) (f : B -> list C) l acc :
  fold_left (fun acc x => fold_left (fun acc y => acc ++ f y) (g x) acc) l acc
  = acc ++ flat_map (fun x => flat_map f (g x)) l.
Proof.
  revert acc. induction l as [|x l IH]; intros acc; simpl.
  - by rewrite app_nil_r.
  - by rewrite IH, fold_left_app_flat_map, <- app_assoc.
Qed.

Lemma fold_left_cond_flat_map {A B} (c : A -> bool) (f : A -> list B) l acc :
  fold_left (fun acc x => if c x then acc ++ f x else acc) l acc
  = acc ++ flat_map (fun x => if c x then f x else []) l.
Proof.
  revert acc. induction l as [|x l IH]; intros acc; simpl.
  - by rewrite app_nil_r.
  - rewrite IH. destruct (c x); [by rewrite <- app_assoc | done].
Qed.

Lemma filter_flat_map {A B} (P : B -> bool) (f : A -> list B) l :
  List.filter P (flat_map f l) = flat_map (fun x => List.filter P (f x)) l.
Proof.
  induction l as [|x l IH]; simpl; [done |].
  by rewrite List.filter_app, IH.
Qed.

Lemma plausible_numbers s :
  plausible (findall digits s) = List.filter in_range (numbers_in s).
Proof. reflexivity. Qed.

Lemma extract_views_filter_max soup :
  _extract_views_from_html soup
  = max_or_zero (List.filter in_range (candidates soup)).
Proof.
  unfold _extract_views_from_html, candidates. cbv zeta. f_equal.
  rewrite (fold_left_nested_flat_map
             (fun selector => find_all_attr soup selector.1 selector.2)
             (fun elem => plausible (findall digits
                (remove_char (ch ",") (remove_char (ch " ") (get_text elem)))))).
  rewrite (fold_left_app_flat_map (fun text => plausible (findall digits text))).
  rewrite (fold_left_cond_flat_map
             (fun meta => contains prosmotr (lower (default [] (attr meta (py "content")))))
             (fun meta => plausible (findall digits (default [] (attr meta (py "content")))))).
  rewrite !List.filter_app, !filter_flat_map. cbn [app]. rewrite <- app_assoc.
  f_equal; [| f_equal].
  - apply flat_map_ext. intros selector. rewrite filter_flat_map. done.
  - apply flat_map_ext. intros meta.
    by destruct (contains prosmotr (lower (default [] (attr meta (py "content"))))).
Qed.

Lemma fold_max_bounds l x :
  x ≤ fold_left Z.max l x
  ∧ (∀ n, n ∈ l -> n ≤ fold_left Z.max l x)
  ∧ fold_left Z.max l x ∈ x :: l.
Proof.
  revert x. induction l as [|y l IH]; intros x; simpl.
  - split; [lia |]. split; [by intros n Hn%elem_of_nil | apply list_elem_of_here].
  - destruct (IH (Z.max x y)) as (H1 & H2 & H3).
    split; [lia |]. split.
    + intros n [-> | Hn]%elem_of_cons; [lia | by apply H2].
    + apply elem_of_cons in H3 as [H3 | H3].
      * rewrite H3. destruct (Z.max_spec x y) as [[_ ->] | [_ ->]].
        -- apply list_elem_of_further, list_elem_of_here.
        -- apply list_elem_of_here.
      * by do 2 apply list_elem_of_further.
Qed.

Lemma max_or_zero_bounds l :
  (l = [] -> max_or_zero l = 0)
  ∧ (l ≠ [] -> max_or_zero l ∈ l)
  ∧ (∀ n, n ∈ l -> n ≤ max_or_zero l).
Proof.
  destruct l as [|x l]; simpl.
  - split; [done |]. split; [done |]. by intros n Hn%elem_of_nil.
  - destruct (fold_max_bounds l x) as (H1 & H2 & H3).
    split; [done |]. split; [done |].
    intros n [-> | Hn]%elem_of_cons; [done | by apply H2].
Qed.

Lemma kept_iff (l : list Z) n :
  n ∈ List.filter in_range l ↔ n ∈ l ∧ 10 < n < 1000000.
Proof.
  rewrite !list_elem_of_In, List.filter_In. unfold in_range.
  rewrite andb_true_iff, !Z.ltb_lt. tauto.
Qed.

(** C4: the views of a page are the largest of its candidate integers
    that lie strictly between 10 and 1,000,000, and 0 when none does.
    A page whose candidates are 1234 and, besides, only 5 and 2000000
    gives 1234; so does the example page, where the element of class
    viewsCount holds 1234 and other counters hold 5 and 2000000. *)
Theorem ok_views_largest_plausible (soup : node) :
  let v := _extract_views_from_html soup in
  let kept := List.filter in_range (candidates soup) in
  v = max_or_zero kept
  ∧ (∀ n, n ∈ kept ↔ n ∈ candidates soup ∧ 10 < n < 1000000)
  ∧ (kept = [] -> v = 0)
  ∧ (kept ≠ [] -> v ∈ kept)
  ∧ (∀ n, n ∈ kept -> n ≤ v)
  ∧ (v = 0 ∨ 10 < v < 1000000)
  ∧ (1234 ∈ candidates soup ->
     (∀ n, n ∈ candidates soup -> n = 1234 ∨ n = 5 ∨ n = 2000000) ->
     v = 1234)
  ∧ candidates ok_page_example = [1234; 5; 1234; 2000000]
  ∧ _extract_views_from_html ok_page_example = 1234.
Proof.
  cbv zeta. rewrite extract_views_filter_max.
  pose proof (max_or_zero_bounds (List.filter in_range (candidates soup)))
    as (Hnil & Hin & Hmax).
  split; [done |]. split; [apply kept_iff |]. split; [done |].
  split; [done |]. split; [done |]. split; [| split].
  - destruct (decide (List.filter in_range (candidates soup) = [])) as [E | E].
    + left. by apply Hnil.
    + right. apply Hin, kept_iff in E. tauto.
  - intros H1234 Honly.
    assert (Hk : 1234 ∈ List.filter in_range (candidates soup))
      by (apply kept_iff; split; [done | lia]).
    assert (Hne : List.filter in_range (candidates soup) ≠ [])
      by (intros E; rewrite E in Hk; by apply elem_of_nil in Hk).
    apply Hin, kept_iff in Hne as [Hc Hr].
    destruct (Honly _ Hc) as [? | [? | ?]]; lia.
  - split; vm_compute; reflexivity.
Qed.

End Heuristic.

(** ** The aggregator *)

Section Aggregator.

Lemma sum_views_nonneg data :
  Forall (fun r => 0 ≤ views r) data -> 0 ≤ sum_views data.
Proof. induction 1; simpl; lia. Qed.

Lemma post_views_nonneg items :
  Forall (fun item => ∀ c, VKParser.item_views item = Some (Some c) -> 0 ≤ c) items ->
  map_Forall (fun _ v => 0 ≤ v) (VKParser.post_views_of items).
Proof.
  unfold VKParser.post_views_of. generalize (∅ : gmap pystr Z) (map_Forall_empty (M := gmap pystr) (fun (_ : pystr) (v : Z) => 0 ≤ v)).
  intros m Hm Hitems. revert m Hm.
  induction Hitems as [|item items Hitem _ IH]; intros m Hm; simpl; [done |].
  apply IH. apply map_Forall_insert_2; [| done].
  destruct (VKParser.item_views item) as [[c|]|]; [by apply Hitem | done | done].
Qed.

Lemma vk_subtotal_nonneg typed reply st vk_posts :
  (∀ status_code data,
     reply = VKParser.Response status_code (Some data) ->
     Forall (fun item => ∀ c, VKParser.item_views item = Some (Some c) -> 0 ≤ c)
       (items_of data)) ->
  0 ≤ (VKParser.get_views typed reply st vk_posts).1.1.
Proof.
  intros Hreply. unfold VKParser.get_views.
  destruct vk_posts as [|p ps]; [done |].
  destruct (negb _); [done |]. cbn [fst]. unfold VKParser.fetch.
  destruct reply as [|status_code [data|]]; [done | | by destruct (VKParser.http_error _)].
  destruct (VKParser.http_error status_code); [done |].
  destruct (VKParser.data_error data); [done |].
  fold (items_of data). rewrite collect_views_map. cbn [fst].
  apply sum_views_nonneg, Forall_forall. intros r Hr.
  apply list_elem_of_fmap in Hr as (p' & -> & _). simpl.
  destruct (VKParser.post_views_of (items_of data) !! vk_post_id p') as [v|] eqn:E;
    [| done].
  simpl. exact (post_views_nonneg _ (Hreply _ _ eq_refl) _ _ E).
Qed.

Lemma recorded_nonneg (replies : nat -> TelegramParser.reply) (p : telegram_post) i :
  (∀ i v, replies i = TelegramParser.Returned (TelegramParser.Message (Some v)) -> 0 ≤ v) ->
  Forall (fun r => 0 ≤ views r) (recorded p (replies i)).
Proof.
  intros H. unfold recorded.
  destruct (replies i) as [[|[v|]] | s |] eqn:E; repeat constructor; simpl; try lia.
  by apply (H i).
Qed.

Lemma tg_subtotal_nonneg typed connects (replies : nat -> TelegramParser.reply)
    st telegram_posts :
  (∀ i v, replies i = TelegramParser.Returned (TelegramParser.Message (Some v)) -> 0 ≤ v) ->
  0 ≤ (TelegramParser.result
         (TelegramParser.get_views typed connects replies st telegram_posts)).1.
Proof.
  intros H. unfold TelegramParser.get_views, TelegramParser.get_views_async.
  destruct telegram_posts as [|p ps]; [done |].
  destruct (negb _); [done |]. destruct (negb connects); [done |].
  cbn [TelegramParser.result fst]. rewrite loop_spec.
  cbn [TelegramParser.total_views Z.add].
  apply sum_views_nonneg, Forall_concat, Forall_forall.
  intros l Hl. apply list_elem_of_lookup in Hl as [k Hk].
  apply list_lookup_imap_Some in Hk as (q & _ & ->).
  by apply recorded_nonneg.
Qed.

Lemma extract_views_nonneg soup : 0 ≤ OKParser._extract_views_from_html soup.
Proof.
  rewrite extract_views_filter_max.
  destruct (max_or_zero_bounds (List.filter OKParser.in_range (candidates soup)))
    as (Hnil & Hin & _).
  destruct (decide (List.filter OKParser.in_range (candidates soup) = [])) as [E | E].
  - rewrite Hnil; [lia | done].
  - apply Hin, kept_iff in E. lia.
Qed.

Lemma ok_subtotal_nonneg replies ok_posts :
  0 ≤ (OKParser.get_views replies ok_posts).1.
Proof.
  unfold OKParser.get_views. destruct ok_posts as [|p ps]; [done |].
  rewrite ok_loop_spec. cbn [fst Z.add].
  apply sum_views_nonneg, Forall_forall. intros r Hr.
  apply list_elem_of_lookup in Hr as [k Hk].
  apply list_lookup_imap_Some in Hk as (q & _ & ->). simpl.
  unfold page_views. destruct (replies _) as [|s soup]; [done |].
  destruct (s =? 200); [apply extract_views_nonneg | done].
Qed.

End Aggregator.

Section Report.

Lemma main_report_shape w :
  read_links_from_file (file w) ≠ [] ->
  reported (main w)
  = if 0 <? subtotal_sum (main w) then TotalViews (subtotal_sum (main w)) else NoData.
Proof.
  intros Hlinks. unfold main, subtotal_sum.
  destruct (read_links_from_file (file w)) as [|l ls]; [done |].
  generalize (extract_post_ids (l :: ls)). intros [vks tgs oks]. cbn [vk telegram ok].
  destruct vks as [|v vs]; destruct tgs as [|t ts]; destruct oks as [|o os];
    try destruct (VKParser.get_views _ _ _ _) as [[vv vd] st];
    cbn [vk_views tg_views ok_views reported default from_option];
    rewrite ?Z.add_0_l, ?Z.add_0_r; reflexivity.
Qed.

Lemma main_subtotals_nonneg w :
  counters_non_negative w ->
  0 ≤ default 0 (vk_views (main w))
  ∧ 0 ≤ default 0 (tg_views (main w))
  ∧ 0 ≤ default 0 (ok_views (main w)).
Proof.
  intros [Hvk Htg]. unfold main.
  destruct (read_links_from_file (file w)) as [|l ls]; [done |].
  generalize (extract_post_ids (l :: ls)). intros [vks tgs oks]. cbn [vk telegram ok].
  assert (Hv : ∀ typed st posts,
             0 ≤ (VKParser.get_views typed (vk_reply w) st posts).1.1)
    by (intros; by apply vk_subtotal_nonneg).
  assert (Ht : ∀ typed c st posts,
             0 ≤ (TelegramParser.result
                    (TelegramParser.get_views typed c (tg_replies w) st posts)).1)
    by (intros; by apply tg_subtotal_nonneg).
  pose proof (ok_subtotal_nonneg (ok_replies w)) as Ho.
  destruct vks as [|v vs]; destruct tgs as [|t ts]; destruct oks as [|o os];
    try (specialize (Hv (vk_typed w)
                       {| VKParser.api_token := VNone; VKParser.config := stored w |}
                       (v :: vs));
         destruct (VKParser.get_views _ _ _ _) as [[vv vd] st]);
    cbn [vk_views tg_views ok_views default from_option fst] in *;
    repeat split; try done; try apply Ht; try apply Ho.
Qed.

(** C8, as the code has it: when there are links to work on, the run
    ends with a report; it reports that no data was obtained exactly
    when the sum of the subtotals of the fetchers is not positive, and
    otherwise the total, which is that sum.  The counters of the remote
    services not being negative, no data is reported exactly when the
    sum is 0; so it is when no link was classified.  How the total is printed (in thousands, one decimal) is
    not part of the model. *)
Theorem report_of_run (w : world) :
  read_links_from_file (file w) ≠ [] ->
  let r := main w in
  (reported r = NoData ↔ subtotal_sum r ≤ 0)
  ∧ (reported r ≠ NoData -> reported r = TotalViews (subtotal_sum r))
  ∧ reported r ≠ NoReport
  ∧ (extract_post_ids (read_links_from_file (file w)) = no_posts ->
     subtotal_sum r = 0 ∧ reported r = NoData)
  ∧ (counters_non_negative w ->
     0 ≤ subtotal_sum r ∧ (reported r = NoData ↔ subtotal_sum r = 0)).
Proof.
  intros Hlinks. cbv zeta.
  assert (Hnone : extract_post_ids (read_links_from_file (file w)) = no_posts ->
                  subtotal_sum (main w) = 0).
  { intros E. unfold main. destruct (read_links_from_file (file w)); [done |].
    by rewrite E. }
  rewrite (main_report_shape w Hlinks).
  destruct (Z.ltb_spec 0 (subtotal_sum (main w))) as [H | H].
  - split; [split; [done | lia] |]. split; [done |]. split; [done |].
    split; [intros E; specialize (Hnone E); lia |].
    intros _. split; [lia |]. split; [done | lia].
  - split; [done |]. split; [done |]. split; [done |].
    split; [intros E; by split; [apply Hnone |] |].
    intros Hnn. destruct (main_subtotals_nonneg w Hnn) as (H1 & H2 & H3).
    unfold subtotal_sum in *. split; [lia |]. split; [lia | done].
Qed.

(** The run on the three links reports 150 views. *)
Lemma report_of_run_witness :
  reported (main world_example) = TotalViews 150
  ∧ subtotal_sum (main world_example) = 150.
Proof.
  destruct (report_of_run world_example) as (_ & H & _);
    [vm_compute; discriminate |].
  split; [| vm_compute; reflexivity].
  rewrite H; [vm_compute; reflexivity | vm_compute; discriminate].
Defined.

(** C8 fails when there is no link: the run ends before the fetchers
    and reports nothing, though the sum of the subtotals is 0. *)
Lemma no_links_no_report :
  reported (main {| file := Some []; stored := ∅; vk_typed := [];
                    vk_reply := VKParser.TransportError;
                    tg_typed := ([], [], []); tg_connects := false;
                    tg_replies := fun _ => TelegramParser.OtherError;
                    ok_replies := fun _ => OKParser.RequestError |})
  = NoReport
  ∧ subtotal_sum (main {| file := Some []; stored := ∅; vk_typed := [];
                          vk_reply := VKParser.TransportError;
                          tg_typed := ([], [], []); tg_connects := false;
                          tg_replies := fun _ => TelegramParser.OtherError;
                          ok_replies := fun _ => OKParser.RequestError |})
    = 0
  ∧ NoReport ≠ NoData.
Proof. split; [reflexivity |]. split; [reflexivity | discriminate]. Qed.

End Report.

(** ** Further facts about the fetchers *)

(** A link is sent to an extraction by what its whole lowercased text
    contains, the query string included. *)
Lemma query_decides_platform :
  extract_post_ids [py "t.me/name/42?ref=vk.com"] = no_posts
  ∧ List.map channel_and_id (telegram (extract_post_ids [py "t.me/name/42"]))
    = [(py "name", 42)].
Proof. split; vm_compute; reflexivity. Qed.

(** X13: a token that config.json already holds is not copied into a
    new VKParser: the request is not made. *)
Lemma stored_vk_token_not_loaded typed reply st (vk_posts : list vk_post) :
  has_vk_token (VKParser.config st) = true ->
  VKParser.api_token st = VNone ->
  (VKParser.get_views typed reply st vk_posts).1 = (0, []).
Proof.
  intros Hstored Hnone. unfold VKParser.get_views, VKParser.acquire_token.
  destruct vk_posts as [|p ps]; [done |].
  rewrite Hstored. cbn [negb]. by rewrite Hnone.
Qed.

(** X18: credentials that config.json already holds are not copied
    into a new TelegramParser: it returns 0 and no results. *)
Lemma stored_telegram_creds_not_loaded typed connects replies st
    (telegram_posts : list telegram_post) :
  has_telegram_creds (TelegramParser.config st) = true ->
  TelegramParser.all_set st = false ->
  TelegramParser.result
    (TelegramParser.get_views_async typed connects replies st telegram_posts)
  = (0, []).
Proof.
  intros Hstored Hnone.
  unfold TelegramParser.get_views_async, TelegramParser.acquire_credentials.
  destruct telegram_posts as [|p ps]; [done |].
  rewrite Hstored. cbn [negb]. by rewrite Hnone.
Qed.

(** Blanks are taken out of the text of an element before the integers
    are read, so two numbers of one matched element that only a blank
    separates are read as one. *)
Lemma neighbouring_numbers_join :
  OKParser._extract_views_from_html
    (OKParser.Tag (py "[document]") ∅
       [OKParser.Tag (py "div") {[ py "class" := py "counter" ]}
          [OKParser.Text (py "5 ");
           OKParser.Tag (py "span") {[ py "class" := py "viewsCount" ]}
             [OKParser.Text (py "1234")]]])
  = 51234.
Proof. vm_compute. reflexivity. Qed.

(** * Further properties *)

(** Lookups in a configuration after a few insertions. *)
Ltac key_ne := let E := fresh in intros E; vm_compute in E; discriminate E.
Ltac lookup_keys :=
  repeat (rewrite lookup_insert_eq || rewrite lookup_insert_ne by key_ne).

Lemma plusc_sound {R} (p : N -> bool) s (k : pystr -> option R) x :
  plusc p s k = Some x ->
  ∃ w s', s = w ++ s' ∧ w ≠ [] ∧ forallb p w = true ∧ k s' = Some x.
Proof.
  revert x. induction s as [|c s IH]; intros x; simpl; [done |].
  destruct (p c) eqn:Hc; [| done].
  destruct (plusc p s k) as [r|] eqn:E.
  - intros [= ->]. destruct (IH x eq_refl) as (w & s' & -> & _ & Hw & Hk).
    exists (c :: w), s'. simpl. by rewrite Hc, Hw.
  - intros Hk. exists [c], s. simpl. by rewrite Hc.
Qed.

Lemma take_app_suffix (w s' : pystr) :
  take (length (w ++ s') - length s') (w ++ s') = w.
Proof.
  rewrite length_app, Nat.add_sub. by rewrite take_app_length.
Qed.

Lemma rmatch_sound {R} ic r : ∀ s g (k : pystr -> groups -> option R) x,
  rmatch ic r s g k = Some x ->
  ∃ w s' g', s = w ++ s' ∧ matches ic r w g g' ∧ k s' g' = Some x.
Proof.
  induction r as [c | p | | r1 IH1 r2 IH2 | r1 IH1 r2 IH2 | r IH | p | p | i r IH];
    intros s g k x; simpl.
  - destruct s as [|y s]; [done |]. destruct (chr_eqb ic c y) eqn:E; [| done].
    intros Hk. exists [y], s, g. split; [done |]. split; [by constructor | done].
  - destruct s as [|y s]; [done |]. destruct (p y) eqn:E; [| done].
    intros Hk. exists [y], s, g. split; [done |]. split; [by constructor | done].
  - intros Hk. exists [], s, g. split; [done |]. split; [constructor | done].
  - intros H. apply IH1 in H as (w1 & s1 & g1 & -> & H1 & H).
    apply IH2 in H as (w2 & s2 & g2 & -> & H2 & H).
    exists (w1 ++ w2), s2, g2. split; [by rewrite app_assoc |].
    split; [by econstructor | done].
  - destruct (rmatch ic r1 s g k) as [y|] eqn:E.
    + intros [= ->]. apply IH1 in E as (w & s' & g' & -> & H1 & H).
      exists w, s', g'. split; [done |]. split; [by apply M_AltL | done].
    + intros H. apply IH2 in H as (w & s' & g' & -> & H1 & H).
      exists w, s', g'. split; [done |]. split; [by apply M_AltR | done].
  - destruct (rmatch ic r s g k) as [y|] eqn:E.
    + intros [= ->]. apply IH in E as (w & s' & g' & -> & H1 & H).
      exists w, s', g'. split; [done |]. split; [by apply M_OptSome | done].
    + intros H. exists [], s, g. split; [done |]. split; [apply M_OptNone | done].
  - intros H. apply plusc_sound in H as (w & s' & -> & Hne & Hw & Hk).
    exists w, s', g. split; [done |]. split; [by constructor | done].
  - unfold starc. destruct (plusc p s (λ s', k s' g)) as [y|] eqn:E.
    + intros [= ->]. apply plusc_sound in E as (w & s' & -> & Hne & Hw & Hk).
      exists w, s', g. split; [done |]. split; [by constructor | done].
    + intros H. exists [], s, g. split; [done |]. split; [by constructor | done].
  - intros H. apply IH in H as (w & s' & g' & -> & H1 & H).
    rewrite take_app_suffix in H.
    exists w, s', (<[i := w]> g'). split; [done |]. split; [by constructor | done].
Qed.

Lemma match_at_sound ic r s m :
  match_at ic r s = Some m ->
  s = m_text m ++ m_rest m ∧ matches ic r (m_text m) ∅ (m_groups m).
Proof.
  unfold match_at. intros H. apply rmatch_sound in H as (w & s' & g' & -> & Hm & [= <-]).
  simpl. by rewrite take_app_suffix.
Qed.

Lemma search_sound ic r s m :
  search_flags ic r s = Some m ->
  ∃ before, s = before ++ m_text m ++ m_rest m
            ∧ matches ic r (m_text m) ∅ (m_groups m).
Proof.
  induction s as [|c s IH]; simpl.
  - destruct (match_at ic r []) as [m'|] eqn:E; [| done].
    intros [= ->]. exists []. by apply match_at_sound.
  - destruct (match_at ic r (c :: s)) as [m'|] eqn:E.
    + intros [= ->]. exists []. by apply match_at_sound.
    + intros H. destruct (IH H) as (b & -> & Hm). by exists (c :: b).
Qed.

Lemma matches_lit t w g g' : matches false (lit t) w g g' -> w = t ∧ g' = g.
Proof.
  revert w g g'. induction t as [|c t IH]; intros w g g' H.
  - by inversion H.
  - destruct t as [|c' t'].
    + simpl in H. inversion H as [? x ? Hx | | | | | | | | | |]; subst.
      simpl in Hx. apply N.eqb_eq in Hx. by subst.
    + change (lit (c :: c' :: t')) with (Seq (Chr c) (lit (c' :: t'))) in H.
      inversion H as [| | | ? ? w1 w2 ? g1 ? H1 H2 | | | | | | |]; subst.
      inversion H1 as [? x ? Hx | | | | | | | | | |]; subst.
      simpl in Hx. apply N.eqb_eq in Hx. subst.
      apply IH in H2 as [-> ->]. done.
Qed.

Lemma matches_str t w g g' : matches false (str t) w g g' -> w = py t ∧ g' = g.
Proof. apply matches_lit. Qed.

Lemma matches_digits ic w g g' :
  matches ic digits w g g' -> digit_string w ∧ g' = g.
Proof. unfold digits. inversion 1; subst. by split. Qed.

Lemma matches_digits_group ic i w g g' :
  matches ic (Grp i digits) w g g' -> digit_string w ∧ g' = <[i := w]> g.
Proof.
  inversion 1 as [| | | | | | | | | | ? ? ? ? g1 H1]; subst.
  apply matches_digits in H1 as [Hd ->]. done.
Qed.

Lemma matches_seq ic r1 r2 w g g' :
  matches ic (Seq r1 r2) w g g' ->
  ∃ w1 w2 g1, w = w1 ++ w2 ∧ matches ic r1 w1 g g1 ∧ matches ic r2 w2 g1 g'.
Proof. inversion 1; subst. eauto 10. Qed.

Lemma matches_opt ic r w g g' :
  matches ic (Opt r) w g g' -> matches ic r w g g' ∨ (w = [] ∧ g' = g).
Proof. inversion 1; subst; eauto. Qed.

Lemma matches_chr ic c w g g' :
  matches ic (Chr c) w g g' -> ∃ x, w = [x] ∧ chr_eqb ic c x = true ∧ g' = g.
Proof. inversion 1; subst; eauto. Qed.

Lemma matches_chr_exact c w g g' :
  matches false (Chr c) w g g' -> w = [c] ∧ g' = g.
Proof.
  inversion 1 as [? x ? Hx | | | | | | | | | |]; subst.
  change ((c =? x)%N = true) in Hx. apply N.eqb_eq in Hx. by subst.
Qed.

Lemma matches_alt ic r1 r2 w g g' :
  matches ic (Alt r1 r2) w g g' -> matches ic r1 w g g' ∨ matches ic r2 w g g'.
Proof. inversion 1; subst; eauto. Qed.

Lemma matches_plusc_group ic i p w g g' :
  matches ic (Grp i (PlusC p)) w g g' ->
  w ≠ [] ∧ forallb p w = true ∧ g' = <[i := w]> g.
Proof.
  inversion 1 as [| | | | | | | | | | ? ? ? ? g1 H1]; subst.
  inversion H1; subst. done.
Qed.

Lemma digit_string_no_minus d : digit_string d -> startswith (py "-") d = false.
Proof.
  intros [Hne Hd]. destruct d as [|c d]; [done |]. cbn [forallb] in Hd.
  apply andb_true_iff in Hd as [Hc _].
  change ((45 =? c)%N && true = false). rewrite andb_true_r.
  apply N.eqb_neq. intros <-. by vm_compute in Hc.
Qed.

Lemma matches_opt_str t w g g' : matches false (Opt (str t)) w g g' -> g' = g.
Proof.
  intros H. apply matches_opt in H as [H | [_ ->]]; [| done].
  by apply matches_str in H as [_ ->].
Qed.

Lemma matches_alt_str t1 t2 w g g' :
  matches false (Alt (str t1) (str t2)) w g g' -> g' = g.
Proof.
  intros H. apply matches_alt in H as [H | H]; by apply matches_str in H as [_ ->].
Qed.

Lemma matches_plusc ic p w g g' :
  matches ic (PlusC p) w g g' -> w ≠ [] ∧ forallb p w = true ∧ g' = g.
Proof. inversion 1; subst. done. Qed.

Lemma matches_grp ic i r w g g' :
  matches ic (Grp i r) w g g' -> ∃ g1, matches ic r w g g1 ∧ g' = <[i := w]> g1.
Proof. inversion 1; subst. eauto. Qed.

Ltac split_matches :=
  repeat match goal with
  | H : matches false (Opt (str _)) _ _ _ |- _ => apply matches_opt_str in H as ->
  | H : matches false (Alt (str _) (str _)) _ _ _ |- _ =>
      apply matches_alt_str in H as ->
  | H : matches _ (PlusC _) _ _ _ |- _ => apply matches_plusc in H as (? & ? & ->)
  | H : matches _ (Seq _ _) _ _ _ |- _ =>
      apply matches_seq in H as (? & ? & ? & -> & ? & H)
  | H : matches _ (str _) _ _ _ |- _ => apply matches_str in H as [-> ->]
  | H : matches _ (Grp _ digits) _ _ _ |- _ =>
      apply matches_digits_group in H as [? ->]
  | H : matches _ digits _ _ _ |- _ => apply matches_digits in H as [? ->]
  | H : matches _ (Grp _ (PlusC _)) _ _ _ |- _ =>
      apply matches_plusc_group in H as (? & ? & ->)
  | H : matches false (Chr _) _ _ _ |- _ => apply matches_chr_exact in H as [-> ->]
  | H : matches _ (Grp _ (Seq _ _)) _ _ _ |- _ =>
      apply matches_grp in H as (? & H & ->)
  end.

Lemma vk_first_pattern_groups link m :
  search (cat [str "wall"; Opt (Chr (ch "-")); Grp 1 digits; Chr (ch "_"); Grp 2 digits])
    link = Some m ->
  digit_string (group m 1) ∧ digit_string (group m 2).
Proof.
  intros H. apply search_sound in H as (b & _ & H). cbn [cat] in H.
  unfold group. revert H. generalize (m_text m) (m_groups m). intros w g H.
  apply matches_seq in H as (w1 & w2 & g1 & -> & H1 & H).
  apply matches_str in H1 as [-> ->].
  apply matches_seq in H as (w2' & w3 & g2 & -> & H2 & H).
  assert (g2 = ∅) as ->.
  { apply matches_opt in H2 as [H2 | [_ ->]]; [| done].
    by apply matches_chr_exact in H2 as [_ ->]. }
  split_matches. unfold groups. rewrite lookup_insert_ne, !lookup_insert_eq by done. done.
Qed.

Lemma vk_second_pattern_group link m :
  search (cat [str "vk.com/"; Opt (str "wall");
               Grp 1 (cat [digits; Chr (ch "_"); digits])]) link = Some m ->
  composite_id false (group m 1).
Proof.
  intros H. apply search_sound in H as (b & _ & H). cbn [cat] in H.
  unfold group. revert H. generalize (m_text m) (m_groups m). intros w g H.
  split_matches. unfold groups. rewrite lookup_insert_eq.
  match goal with
  | Ho : digit_string ?o, Hq : digit_string ?q |- context [?o ++ _ ++ ?q] =>
      exists o, q; split; [reflexivity | done]
  end.
Qed.

Lemma vk_third_pattern_group link m :
  search (cat [str "vk.com/"; PlusC (fun c => is_word c || (c =? ch ".")%N);
               str "?w=wall-"; Grp 1 (cat [digits; Chr (ch "_"); digits])]) link
  = Some m ->
  composite_id false (group m 1).
Proof.
  intros H. apply search_sound in H as (b & _ & H). cbn [cat] in H.
  unfold group. revert H. generalize (m_text m) (m_groups m). intros w g H.
  split_matches. unfold groups. rewrite lookup_insert_eq.
  match goal with
  | Ho : digit_string ?o, Hq : digit_string ?q |- context [?o ++ _ ++ ?q] =>
      exists o, q; split; [reflexivity | done]
  end.
Qed.

Ltac case_search E :=
  match goal with
  | |- context [match search ?p ?l with _ => _ end] =>
      destruct (search p l) as [?m|] eqn:E
  end.

Lemma extract_vk_post_shape link original :
  _extract_vk_post link original [] = []
  ∨ ∃ minus id, composite_id minus id
      ∧ _extract_vk_post link original []
        = [{| vk_post_id := id; vk_original_link := original |}].
Proof.
  unfold _extract_vk_post, vk_patterns. cbn [vk_pattern_loop Nat.eqb app].
  case_search E1.
  { right. apply vk_first_pattern_groups in E1 as [H1 H2].
    rewrite (digit_string_no_minus _ H1).
    exists true, (py "-" ++ group m 1 ++ py "_" ++ group m 2).
    split; [by exists (group m 1), (group m 2) |]. by rewrite <- app_assoc. }
  case_search E2.
  { right. apply vk_second_pattern_group in E2. by exists false, (group m 1). }
  case_search E3.
  { right. apply vk_third_pattern_group in E3. by exists false, (group m 1). }
  by left.
Qed.

Lemma int_of_digits_from acc d :
  0 ≤ acc -> forallb is_digit d = true ->
  0 ≤ fold_left (fun acc c => 10 * acc + digit_value c) d acc.
Proof.
  revert acc. induction d as [|c d IH]; intros acc Hacc Hd; simpl; [done |].
  cbn [forallb] in Hd. apply andb_true_iff in Hd as [Hc Hd].
  apply IH; [| done]. unfold is_digit, between in Hc.
  apply andb_true_iff in Hc as [Hc _]. apply N.leb_le in Hc.
  unfold digit_value. lia.
Qed.

Lemma int_of_digits_nonneg d : digit_string d -> 0 ≤ int_of_digits d.
Proof. intros [_ Hd]. by apply int_of_digits_from. Qed.

Lemma forallb_drop {A} (p : A -> bool) n l :
  forallb p l = true -> forallb p (drop n l) = true.
Proof.
  rewrite !forallb_forall. intros H x Hx. apply H.
  apply list_elem_of_In. apply list_elem_of_In in Hx.
  by apply (subseteq_drop n l).
Qed.

Lemma telegram_first_pattern_groups s m :
  search (cat [Alt (str "t.me") (str "telegram.me"); Chr (ch "/"); Opt (str "s/");
               Grp 1 (PlusC (fun c => negb ((c =? ch "/")%N || (c =? ch "?")%N)));
               Chr (ch "/"); Grp 2 digits]) s = Some m ->
  group m 1 ≠ [] ∧ forallb name_char (group m 1) = true
  ∧ digit_string (group m 2) ∧ group m 1 ⊆ s.
Proof.
  intros H. apply search_sound in H as (b & Hs & H). cbn [cat] in H.
  unfold group. destruct m as [w rest g]. cbn [m_text m_rest m_groups] in *.
  split_matches. unfold groups.
  rewrite lookup_insert_ne, !lookup_insert_eq by done. cbn [default from_option id].
  split; [done |]. split; [done |]. split; [done |].
  subst s. intros c Hc. rewrite !elem_of_app. tauto.
Qed.

Lemma telegram_second_pattern_groups s m :
  search (cat [Alt (str "t.me") (str "telegram.me"); str "/c/"; Grp 1 digits;
               Chr (ch "/"); Grp 2 digits]) s = Some m ->
  digit_string (group m 1) ∧ digit_string (group m 2) ∧ group m 1 ⊆ s.
Proof.
  intros H. apply search_sound in H as (b & Hs & H). cbn [cat] in H.
  unfold group. destruct m as [w rest g]. cbn [m_text m_rest m_groups] in *.
  split_matches. unfold groups.
  rewrite lookup_insert_ne, !lookup_insert_eq by done. cbn [default from_option id].
  split; [done |]. split; [done |].
  subst s. intros c Hc. rewrite !elem_of_app. tauto.
Qed.

Lemma between_spec lo hi c : between lo hi c = true ↔ (lo <= c <= hi)%N.
Proof. unfold between. rewrite andb_true_iff, !N.leb_le. done. Qed.

Lemma cp_lower_idemp c : cp_lower (cp_lower c) = cp_lower c.
Proof.
  unfold cp_lower at 2 3.
  repeat match goal with
  | |- context [between ?lo ?hi c] =>
      let E := fresh "E" in
      destruct (between lo hi c) eqn:E;
      [apply between_spec in E | apply not_true_iff_false in E; rewrite between_spec in E]
  end;
  unfold cp_lower;
  repeat match goal with
  | |- context [between ?lo ?hi ?x] =>
      let E := fresh "E" in
      destruct (between lo hi x) eqn:E;
      [apply between_spec in E; lia | clear E]
  end; reflexivity.
Qed.

Lemma lower_idemp s : lower (lower s) = lower s.
Proof.
  unfold lower. rewrite List.map_map. apply List.map_ext. apply cp_lower_idemp.
Qed.

Lemma clean_link_subseteq link : clean_link link ⊆ link.
Proof.
  induction link as [|c s IH]; [done |]. rewrite clean_link_cons.
  destruct ((c =? ch "?")%N || (c =? ch "#")%N).
  - intros x Hx. by apply elem_of_nil in Hx.
  - intros x [-> | Hx]%elem_of_cons; [apply list_elem_of_here |].
    apply list_elem_of_further. by apply IH.
Qed.

Lemma digits_are_name_chars d :
  forallb is_digit d = true -> forallb name_char d = true.
Proof.
  rewrite !forallb_forall. intros H c Hc. specialize (H c Hc).
  unfold is_digit in H. apply between_spec in H. unfold name_char.
  apply negb_true_iff, orb_false_iff.
  split; apply N.eqb_neq; intros ->; vm_compute in H; destruct H as [H1 H2];
    by (apply H1 || apply H2).
Qed.

Lemma extract_telegram_post_shape link original :
  _extract_telegram_post link original [] = []
  ∨ ∃ c n, forallb name_char c = true ∧ c ⊆ clean_link link ∧ 0 ≤ n
      ∧ _extract_telegram_post link original []
        = [{| tg_channel := c; tg_message_id := n; tg_original_link := original |}].
Proof.
  unfold _extract_telegram_post, telegram_patterns.
  cbn [telegram_pattern_loop app].
  case_search E1.
  { right. apply telegram_first_pattern_groups in E1 as (_ & Hc & Hd & Hsub).
    eexists _, _. split; [| split; [| split; [| reflexivity]]].
    - destruct (startswith (py "@") (group m 1)); [by apply forallb_drop | done].
    - transitivity (group m 1).
      + destruct (startswith (py "@") (group m 1)); [apply subseteq_drop | done].
      + exact Hsub.
    - by apply int_of_digits_nonneg. }
  case_search E2.
  { right. apply telegram_second_pattern_groups in E2 as (Hc & Hd & Hsub).
    eexists _, _. split; [| split; [| split; [| reflexivity]]].
    - destruct Hc as [_ Hc]. apply digits_are_name_chars in Hc.
      destruct (startswith (py "@") (group m 1)); [by apply forallb_drop | done].
    - transitivity (group m 1).
      + destruct (startswith (py "@") (group m 1)); [apply subseteq_drop | done].
      + exact Hsub.
    - by apply int_of_digits_nonneg. }
  by left.
Qed.

Lemma ok_name_pattern_groups kind s m :
  search (cat [str "ok.ru/";
               Grp 1 (PlusC (fun c => negb ((c =? ch "/")%N || (c =? ch "?")%N)));
               str kind; Grp 2 digits]) s = Some m ->
  group m 1 ≠ [] ∧ forallb name_char (group m 1) = true
  ∧ digit_string (group m 2) ∧ group m 1 ⊆ s.
Proof.
  intros H. apply search_sound in H as (b & Hs & H). cbn [cat] in H.
  unfold group. destruct m as [w rest g]. cbn [m_text m_rest m_groups] in *.
  split_matches. unfold groups.
  rewrite lookup_insert_ne, !lookup_insert_eq by done. cbn [default from_option id].
  split; [done |]. split; [done |]. split; [done |].
  subst s. intros c Hc. rewrite !elem_of_app. tauto.
Qed.

Lemma ok_group_pattern_groups s m :
  search (cat [str "ok.ru/"; Opt (str "group"); Grp 1 digits; str "/topic/";
               Grp 2 digits]) s = Some m ->
  digit_string (group m 1) ∧ digit_string (group m 2) ∧ group m 1 ⊆ s.
Proof.
  intros H. apply search_sound in H as (b & Hs & H). cbn [cat] in H.
  unfold group. destruct m as [w rest g]. cbn [m_text m_rest m_groups] in *.
  split_matches. unfold groups.
  rewrite lookup_insert_ne, !lookup_insert_eq by done. cbn [default from_option id].
  split; [done |]. split; [done |].
  subst s. intros c Hc. rewrite !elem_of_app. tauto.
Qed.

Lemma extract_ok_post_shape link original :
  _extract_ok_post link original [] = []
  ∨ ∃ name topic,
      name ≠ [] ∧ forallb name_char name = true ∧ name ⊆ link ∧ digit_string topic
      ∧ _extract_ok_post link original []
        = [{| ok_group_name := name; ok_topic_id := topic;
              ok_original_link := original |}].
Proof.
  unfold _extract_ok_post, ok_patterns. cbn [ok_pattern_loop app].
  case_search E1.
  { right. apply ok_name_pattern_groups in E1 as (Hne & Hc & Hd & Hsub).
    by eexists _, _. }
  case_search E2.
  { right. apply ok_name_pattern_groups in E2 as (Hne & Hc & Hd & Hsub).
    by eexists _, _. }
  case_search E3.
  { right. apply ok_group_pattern_groups in E3 as ([Hne Hc] & Hd & Hsub).
    apply digits_are_name_chars in Hc. by eexists _, _. }
  by left.
Qed.

(** The posts of a link: what [extract_post_ids] makes of it alone. *)
Lemma elem_of_vk_extract links p :
  p ∈ vk (extract_post_ids links) ↔ ∃ l, l ∈ links ∧ p ∈ vk (extract_post_ids [l]).
Proof.
  rewrite extract_post_ids_flat. cbn [vk]. rewrite list_elem_of_In, in_flat_map.
  split; intros (l & Hl & Hp); exists l; rewrite contribution_single in *;
    by rewrite ?list_elem_of_In in *.
Qed.

Lemma elem_of_telegram_extract links p :
  p ∈ telegram (extract_post_ids links)
  ↔ ∃ l, l ∈ links ∧ p ∈ telegram (extract_post_ids [l]).
Proof.
  rewrite extract_post_ids_flat. cbn [telegram]. rewrite list_elem_of_In, in_flat_map.
  split; intros (l & Hl & Hp); exists l; rewrite contribution_single in *;
    by rewrite ?list_elem_of_In in *.
Qed.

Lemma elem_of_ok_extract links p :
  p ∈ ok (extract_post_ids links) ↔ ∃ l, l ∈ links ∧ p ∈ ok (extract_post_ids [l]).
Proof.
  rewrite extract_post_ids_flat. cbn [ok]. rewrite list_elem_of_In, in_flat_map.
  split; intros (l & Hl & Hp); exists l; rewrite contribution_single in *;
    by rewrite ?list_elem_of_In in *.
Qed.

Lemma clean_link_no_separator link c :
  c ∈ clean_link link -> c ≠ ch "?" ∧ c ≠ ch "#".
Proof.
  induction link as [|x s IH]; [by intros H%elem_of_nil |].
  rewrite clean_link_cons.
  destruct (N.eqb_spec x (ch "?")) as [-> | H1]; [by intros H%elem_of_nil |].
  destruct (N.eqb_spec x (ch "#")) as [-> | H2]; [by intros H%elem_of_nil |].
  cbn [orb]. intros [-> | H]%elem_of_cons; [done | by apply IH].
Qed.

Lemma lower_fixed (c link : pystr) : c ⊆ lower link -> lower c = c.
Proof.
  intros Hsub. unfold lower. rewrite <- (List.map_id c) at 2.
  apply List.map_ext_in. intros x Hx%list_elem_of_In.
  apply Hsub in Hx. unfold lower in Hx.
  apply list_elem_of_In, in_map_iff in Hx as (y & <- & _). apply cp_lower_idemp.
Qed.

Lemma vk_contribution l :
  vk (contribution l) = []
  ∨ ∃ minus id, composite_id minus id
      ∧ vk (contribution l) = [{| vk_post_id := id; vk_original_link := l |}].
Proof.
  unfold contribution, classify_link. cbn [vk telegram ok no_posts].
  destruct (_ || _); [apply extract_vk_post_shape |].
  destruct (_ || _); [by left |]. destruct (contains _ _); by left.
Qed.

Lemma telegram_contribution l :
  telegram (contribution l) = []
  ∨ ∃ c n, forallb name_char c = true ∧ c ⊆ clean_link (lower l) ∧ 0 ≤ n
      ∧ telegram (contribution l)
        = [{| tg_channel := c; tg_message_id := n; tg_original_link := l |}].
Proof.
  unfold contribution, classify_link. cbn [vk telegram ok no_posts].
  destruct (_ || _); [by left |].
  destruct (_ || _); [apply extract_telegram_post_shape |].
  destruct (contains _ _); by left.
Qed.

Lemma ok_contribution l :
  ok (contribution l) = []
  ∨ ∃ name topic,
      name ≠ [] ∧ forallb name_char name = true ∧ name ⊆ lower l
      ∧ digit_string topic
      ∧ ok (contribution l)
        = [{| ok_group_name := name; ok_topic_id := topic; ok_original_link := l |}].
Proof.
  unfold contribution, classify_link. cbn [vk telegram ok no_posts].
  destruct (_ || _); [by left |].
  destruct (_ || _); [by left |].
  destruct (contains _ _); [apply extract_ok_post_shape | by left].
Qed.

(** X1: the id of every VK post the classifier makes is a string of
    digits, an underscore and a string of digits, with or without a
    minus in front; its original link is one of the input links. *)
Theorem vk_post_ids_well_formed links p :
  p ∈ vk (extract_post_ids links) ->
  (∃ minus, composite_id minus (vk_post_id p)) ∧ vk_original_link p ∈ links.
Proof.
  intros (l & Hl & Hp)%elem_of_vk_extract. rewrite contribution_single in Hp.
  destruct (vk_contribution l) as [E | (minus & id & Hid & E)]; rewrite E in Hp.
  - by apply elem_of_nil in Hp.
  - apply list_elem_of_singleton in Hp as ->. split; [by exists minus | done].
Qed.

(** X2: every Telegram post the classifier makes has a message id that
    is not negative and a channel without slash, question mark or hash
    sign, in lower case; its original link is one of the input links. *)
Theorem telegram_posts_well_formed links p :
  p ∈ telegram (extract_post_ids links) ->
  0 ≤ tg_message_id p
  ∧ (∀ c, c ∈ tg_channel p -> c ≠ ch "/" ∧ c ≠ ch "?" ∧ c ≠ ch "#")
  ∧ lower (tg_channel p) = tg_channel p
  ∧ tg_original_link p ∈ links.
Proof.
  intros (l & Hl & Hp)%elem_of_telegram_extract. rewrite contribution_single in Hp.
  destruct (telegram_contribution l) as [E | (c & n & Hc & Hsub & Hn & E)];
    rewrite E in Hp.
  - by apply elem_of_nil in Hp.
  - apply list_elem_of_singleton in Hp as ->. cbn [tg_message_id tg_channel tg_original_link].
    split; [done |]. split; [| split; [| done]].
    + intros x Hx. pose proof (clean_link_no_separator _ _ (Hsub _ Hx)) as [_ H3].
      rewrite forallb_forall in Hc. apply list_elem_of_In, Hc in Hx.
      unfold name_char in Hx. apply negb_true_iff, orb_false_iff in Hx as [H1 H2].
      apply N.eqb_neq in H1, H2. done.
    + apply (lower_fixed c l). etransitivity; [exact Hsub | apply clean_link_subseteq].
Qed.

(** X3: every OK post the classifier makes has a topic id of one or more
    digits and a group name that is not empty, has no slash and no
    question mark and is in lower case; its original link is one of the
    input links. *)
Theorem ok_posts_well_formed links p :
  p ∈ ok (extract_post_ids links) ->
  digit_string (ok_topic_id p)
  ∧ ok_group_name p ≠ []
  ∧ (∀ c, c ∈ ok_group_name p -> c ≠ ch "/" ∧ c ≠ ch "?")
  ∧ lower (ok_group_name p) = ok_group_name p
  ∧ ok_original_link p ∈ links.
Proof.
  intros (l & Hl & Hp)%elem_of_ok_extract. rewrite contribution_single in Hp.
  destruct (ok_contribution l) as [E | (name & topic & Hne & Hc & Hsub & Hd & E)];
    rewrite E in Hp.
  - by apply elem_of_nil in Hp.
  - apply list_elem_of_singleton in Hp as ->.
    cbn [ok_topic_id ok_group_name ok_original_link].
    split; [done |]. split; [done |]. split; [| split; [| done]].
    + intros x Hx. rewrite forallb_forall in Hc. apply list_elem_of_In, Hc in Hx.
      unfold name_char in Hx. apply negb_true_iff, orb_false_iff in Hx as [H1 H2].
      apply N.eqb_neq in H1, H2. done.
    + by apply (lower_fixed name l).
Qed.

(** X4: classifying two lists of links one after the other gives, list
    by list, the posts of the first followed by the posts of the
    second. *)
Theorem extract_post_ids_app links1 links2 :
  extract_post_ids (links1 ++ links2)
  = {| vk := vk (extract_post_ids links1) ++ vk (extract_post_ids links2);
       telegram := telegram (extract_post_ids links1)
                   ++ telegram (extract_post_ids links2);
       ok := ok (extract_post_ids links1) ++ ok (extract_post_ids links2) |}.
Proof.
  rewrite !extract_post_ids_flat. cbn [vk telegram ok].
  by rewrite !flat_map_app.
Qed.

Lemma vk_loop_original patterns idx link o1 o2 :
  List.map vk_post_id (vk_pattern_loop idx patterns link o1 [])
  = List.map vk_post_id (vk_pattern_loop idx patterns link o2 []).
Proof.
  revert idx. induction patterns as [|p ps IH]; intros idx; simpl; [done |].
  by destruct (search p link).
Qed.

Lemma ok_loop_original patterns link o1 o2 :
  List.map group_and_topic (ok_pattern_loop patterns link o1 [])
  = List.map group_and_topic (ok_pattern_loop patterns link o2 []).
Proof.
  induction patterns as [|p ps IH]; simpl; [done |].
  by destruct (search p link).
Qed.

(** X5: two links that differ only in the case of their letters give
    the same ids: the same VK post ids, the same channels and message
    ids, the same groups and topics. *)
Theorem classification_ignores_case l1 l2 :
  lower l1 = lower l2 ->
  List.map vk_post_id (vk (extract_post_ids [l1]))
  = List.map vk_post_id (vk (extract_post_ids [l2]))
  ∧ List.map channel_and_id (telegram (extract_post_ids [l1]))
    = List.map channel_and_id (telegram (extract_post_ids [l2]))
  ∧ List.map group_and_topic (ok (extract_post_ids [l1]))
    = List.map group_and_topic (ok (extract_post_ids [l2])).
Proof.
  intros E. rewrite !contribution_single. unfold contribution, classify_link.
  cbn [vk telegram ok no_posts]. rewrite E.
  destruct (_ || _).
  { cbn [vk telegram ok]. split; [apply vk_loop_original | done]. }
  destruct (_ || _).
  { cbn [vk telegram ok]. split; [done |]. split; [| done].
    apply telegram_loop_original. }
  destruct (contains _ _); cbn [vk telegram ok]; [| done].
  split; [done |]. split; [done |]. apply ok_loop_original.
Qed.

Lemma classification_ignores_case_witness :
  List.map vk_post_id (vk (extract_post_ids [py "VK.com/Wall-1_2"]))
  = List.map vk_post_id (vk (extract_post_ids [py "vk.com/wall-1_2"])).
Proof.
  apply (classification_ignores_case (py "VK.com/Wall-1_2") (py "vk.com/wall-1_2")).
  vm_compute. reflexivity.
Defined.

(** X6: the first marker found decides.  A link with vk.com in it, or
    wall at its start, gives no Telegram and no OK post, whatever else
    it mentions; one with t.me or telegram.me gives no OK post; and a
    link without any marker gives no post at all. *)
Theorem platform_precedence l :
  let out := extract_post_ids [l] in
  (vk_marker l = true -> telegram out = [] ∧ ok out = [])
  ∧ (vk_marker l = false -> vk out = [])
  ∧ (telegram_marker l = true -> ok out = [])
  ∧ (telegram_marker l = false -> telegram out = [])
  ∧ (ok_marker l = false -> ok out = [])
  ∧ (vk_marker l = false -> telegram_marker l = false -> ok_marker l = false ->
     out = no_posts).
Proof.
  cbv zeta. rewrite contribution_single.
  unfold contribution, classify_link, vk_marker, telegram_marker, ok_marker.
  cbn [vk telegram ok no_posts].
  destruct (contains (py "vk.com") (lower l) || startswith (py "wall") (lower l));
    destruct (contains (py "t.me") (lower l) || contains (py "telegram.me") (lower l));
    destruct (contains (py "ok.ru") (lower l)); cbn [vk telegram ok];
    repeat split; intros; done.
Qed.

Lemma lstrip_idemp s : lstrip (lstrip s) = lstrip s.
Proof.
  induction s as [|c s IH]; [done |]. simpl.
  destruct (is_space c) eqn:E; [done |]. simpl. by rewrite E.
Qed.

Lemma lstrip_snoc s c :
  is_space c = false -> lstrip (s ++ [c]) = lstrip s ++ [c].
Proof.
  intros Hc. induction s as [|x s IH]; simpl.
  - by rewrite Hc.
  - by destruct (is_space x).
Qed.

Lemma rstrip_cons c s :
  is_space c = false -> rstrip (c :: s) = c :: rstrip s.
Proof.
  intros Hc. unfold rstrip. cbn [rev].
  by rewrite lstrip_snoc, rev_app_distr.
Qed.

Lemma rstrip_idemp s : rstrip (rstrip s) = rstrip s.
Proof. unfold rstrip. by rewrite rev_involutive, lstrip_idemp. Qed.

Lemma lstrip_head s :
  lstrip s = [] ∨ ∃ c t, lstrip s = c :: t ∧ is_space c = false.
Proof.
  induction s as [|c s IH]; [by left |]. simpl.
  destruct (is_space c) eqn:E; [done |]. right. by exists c, s.
Qed.

Lemma strip_idemp s : strip (strip s) = strip s.
Proof.
  unfold strip. destruct (lstrip_head s) as [-> | (c & t & -> & Hc)]; [done |].
  rewrite (rstrip_cons c t Hc). cbn [lstrip]. rewrite Hc.
  rewrite <- (rstrip_cons c t Hc). apply rstrip_idemp.
Qed.

(** X7: every link [read_links_from_file] returns is a line of the
    file with the white space at both ends removed: it is not empty
    and stripping it again changes nothing. *)
Theorem read_links_are_stripped file l :
  l ∈ read_links_from_file file ->
  l ≠ [] ∧ strip l = l
  ∧ (∃ line lines, file = Some lines ∧ line ∈ lines ∧ l = strip line).
Proof.
  destruct file as [lines|]; [| by intros H%elem_of_nil].
  rewrite read_links_take. intros Hl.
  apply (subseteq_take max_links) in Hl. unfold supplied in Hl.
  apply list_elem_of_In, in_map_iff in Hl as (line & <- & Hline).
  apply filter_In in Hline as [Hin Hne].
  apply negb_true_iff in Hne. unfold str_eqb in Hne.
  apply bool_decide_eq_false in Hne.
  split; [done |]. split; [apply strip_idemp |].
  exists line, lines. by rewrite list_elem_of_In.
Qed.

Lemma read_links_bounds file :
  (length (read_links_from_file file) ≤ 100)%nat
  ∧ read_links_from_file None = []
  ∧ read_links_from_file file `sublist_of` List.map strip (default [] file).
Proof.
  split; [| split; [done |]].
  - destruct file as [lines|]; [| simpl; lia].
    rewrite read_links_take, length_take. unfold max_links. lia.
  - destruct file as [lines|]; [| done]. rewrite read_links_take. cbn [default from_option id].
    etransitivity; [apply sublist_take |]. unfold supplied.
    induction lines as [|x xs IH]; [done |]. simpl.
    destruct (negb _); simpl; [by apply sublist_skip | by apply sublist_cons].
Qed.

Section VKMore.
Import VKParser.

Lemma post_views_of_snoc items post :
  post_views_of (items ++ [post])
  = <[item_key post := item_count post]> (post_views_of items).
Proof. unfold post_views_of. by rewrite fold_left_app. Qed.

(** X9: what post_views holds for a key is the count of the last item
    of the reply with that key, and nothing when no item has it. *)
Theorem post_views_last_item_wins items k :
  post_views_of items !! k
  = item_count <$> last (List.filter (fun post => bool_decide (item_key post = k)) items).
Proof.
  induction items as [|post items IH] using rev_ind; [done |].
  rewrite post_views_of_snoc, List.filter_app. cbn [List.filter].
  destruct (decide (item_key post = k)) as [E | E].
  - rewrite bool_decide_eq_true_2 by done. rewrite last_snoc. simpl.
    rewrite E. apply lookup_insert_eq.
  - rewrite bool_decide_eq_false_2 by done. rewrite app_nil_r.
    by rewrite lookup_insert_ne.
Qed.

(** X8: whatever the reply and the token, [get_views] returns either 0
    and no results, or one result for every post, in the order and
    with the links of the posts, and their sum: never a part of the
    batch. *)
Theorem vk_all_or_nothing typed reply st (vk_posts : list vk_post) :
  let out := (get_views typed reply st vk_posts).1 in
  out = (0, [])
  ∨ (List.map link out.2 = List.map vk_original_link vk_posts
     ∧ length out.2 = length vk_posts
     ∧ out.1 = sum_views out.2).
Proof.
  cbv zeta. unfold get_views. destruct vk_posts as [|p ps]; [by left |].
  destruct (negb _); [by left |]. cbn [fst]. unfold fetch.
  destruct reply as [|status_code [data|]];
    [by left | | by destruct (http_error _); left].
  destruct (http_error _); [by left |].
  destruct (data_error data); [by left |].
  right. rewrite collect_views_map. cbn [fst snd].
  rewrite List.map_map, length_map. done.
Qed.

Lemma acquire_token_typed typed st :
  has_vk_token (config st) = false ->
  acquire_token typed st
  = if negb (str_eqb (strip typed) []) then
      {| api_token := VStr (strip typed);
         config := set (config st) (py "vk_token") (VStr (strip typed)) |}
    else {| api_token := get (config st) (py "vk_token"); config := config st |}.
Proof.
  intros Hno. unfold acquire_token. rewrite Hno. cbn [negb api_token].
  unfold has_vk_token in Hno. rewrite Hno. cbn [negb].
  unfold setup_token. cbn [config].
  destruct (negb (str_eqb (strip typed) [])); cbn [config]; [| done].
  unfold get, set. by rewrite lookup_insert_eq.
Qed.

(** X12: with no token in the configuration the user is asked for one.
    A token that is not blank is stored, stripped, under vk_token and
    the request is made; a blank answer leaves the configuration as it
    was and gives 0 and no results. *)
Theorem vk_typed_token_is_used typed reply st (vk_posts : list vk_post) :
  vk_posts ≠ [] ->
  has_vk_token (config st) = false ->
  let out := get_views typed reply st vk_posts in
  (strip typed ≠ [] ->
   out.1 = fetch reply vk_posts
   ∧ config out.2 = set (config st) (py "vk_token") (VStr (strip typed))
   ∧ has_vk_token (config out.2) = true)
  ∧ (strip typed = [] -> out.1 = (0, []) ∧ config out.2 = config st).
Proof.
  intros Hne Hno. cbv zeta. unfold get_views.
  destruct vk_posts as [|p ps]; [done |].
  rewrite (acquire_token_typed typed st Hno). unfold str_eqb.
  split; intros Ht.
  - rewrite bool_decide_eq_false_2 by done. cbn [negb api_token truthy config].
    unfold str_eqb. rewrite bool_decide_eq_false_2 by done. cbn [negb fst snd config].
    split; [done |]. split; [done |].
    unfold has_vk_token, get, set. rewrite lookup_insert_eq. cbn.
    unfold str_eqb. by rewrite bool_decide_eq_false_2.
  - rewrite bool_decide_eq_true_2 by done. cbn [negb api_token].
    unfold has_vk_token in Hno. rewrite Hno. done.
Qed.

End VKMore.

Section TelegramMore.
Import TelegramParser.

Lemma recorded_length (replies : nat -> reply) (posts : list telegram_post) i :
  (length (concat (imap (fun k p => recorded p (replies (i + k)%nat)) posts))
   + length (List.filter (fun k => rate_limited (replies k)) (seq i (length posts)))
   = length posts)%nat.
Proof.
  revert i. induction posts as [|p ps IH]; intros i; [done |].
  rewrite imap_cons. cbn [concat length seq List.filter]. rewrite length_app.
  rewrite Nat.add_0_r.
  rewrite (imap_ext _ (fun k p0 => recorded p0 (replies (S i + k)%nat)) ps)
    by (intros; simpl; f_equal; f_equal; lia).
  specialize (IH (S i)).
  destruct (replies i) as [m | s |]; cbn [recorded rate_limited length]; lia.
Qed.

Lemma recorded_links (replies : nat -> reply) (posts : list telegram_post) i :
  List.map link (concat (imap (fun k p => recorded p (replies (i + k)%nat)) posts))
  `sublist_of` List.map tg_original_link posts.
Proof.
  revert i. induction posts as [|p ps IH]; intros i; [done |].
  rewrite imap_cons. cbn [concat List.map]. rewrite List.map_app, Nat.add_0_r.
  rewrite (imap_ext _ (fun k p0 => recorded p0 (replies (S i + k)%nat)) ps)
    by (intros; simpl; f_equal; f_equal; lia).
  specialize (IH (S i)).
  destruct (replies i) as [m | s |]; cbn [recorded List.map app];
    [by apply sublist_skip | by apply sublist_cons | by apply sublist_skip].
Qed.

Lemma get_views_async_cases typed connects replies st (posts : list telegram_post) :
  let out := get_views_async typed connects replies st posts in
  (result out = (0, []) ∧ events out = []
   ∧ (posts = [] ∨ all_set (acquire_credentials typed st) = false))
  ∨ (result out = (0, []) ∧ events out = [Connect] ∧ connects = false)
  ∨ (connects = true ∧ posts ≠ [] ∧ all_set (acquire_credentials typed st) = true
     ∧ result out
       = (sum_views (concat (imap (fun i p => recorded p (replies i)) posts)),
          concat (imap (fun i p => recorded p (replies i)) posts))
     ∧ events out
       = Connect :: concat (imap (fun i p => calls_and_waits p (replies i)) posts)
           ++ [Disconnect]).
Proof.
  cbv zeta. unfold get_views_async. destruct posts as [|p ps]; [left; auto |].
  destruct (all_set (acquire_credentials typed st)) eqn:E; cbn [negb];
    [| left; auto].
  destruct connects; cbn [negb]; [| right; left; auto].
  right; right. rewrite loop_spec.
  cbn [total_views telegram_views_data trace result events app Nat.add].
  repeat split; done.
Qed.

(** X14: the results of the Telegram fetcher are those of some of the
    posts, in their order, never more than the posts; when there are
    results, they and the rate-limited calls add up to the posts. *)
Theorem telegram_results_follow_posts typed connects replies st
    (telegram_posts : list telegram_post) :
  let out := get_views_async typed connects replies st telegram_posts in
  List.map link (result out).2 `sublist_of` List.map tg_original_link telegram_posts
  ∧ (length (result out).2 ≤ length telegram_posts)%nat
  ∧ ((result out).2 = []
     ∨ (length (result out).2
        + length (List.filter (fun i => rate_limited (replies i))
                    (seq 0 (length telegram_posts)))
        = length telegram_posts)%nat).
Proof.
  cbv zeta.
  pose proof (recorded_length replies telegram_posts 0) as Hlen.
  pose proof (recorded_links replies telegram_posts 0) as Hsub.
  cbn [Nat.add] in Hlen, Hsub.
  destruct (get_views_async_cases typed connects replies st telegram_posts)
    as [(-> & _) | [(-> & _) | (_ & _ & _ & -> & _)]]; cbn [fst snd].
  - split; [apply sublist_nil_l |]. split; [simpl; lia | by left].
  - split; [apply sublist_nil_l |]. split; [simpl; lia | by left].
  - split; [done |]. split; [lia | by right].
Qed.

Lemma calls_app a b : calls (a ++ b) = calls a ++ calls b.
Proof. unfold calls. apply omap_app. Qed.

Lemma calls_of_posts (replies : nat -> reply) (posts : list telegram_post) i :
  calls (concat (imap (fun k p => calls_and_waits p (replies (i + k)%nat)) posts))
  = List.map channel_and_id posts.
Proof.
  revert i. induction posts as [|p ps IH]; intros i; [done |].
  rewrite imap_cons. cbn [concat List.map]. rewrite calls_app, Nat.add_0_r.
  rewrite (imap_ext _ (fun k p0 => calls_and_waits p0 (replies (S i + k)%nat)) ps)
    by (intros; simpl; f_equal; f_equal; lia).
  rewrite IH. by destruct (replies i).
Qed.

(** X15: a call of the Telegram fetcher does nothing to the outside, or
    only tries to connect and fails, or connects once, calls
    [get_messages] once for each post with its channel and message id,
    in order, and disconnects once at the end. *)
Theorem telegram_session_discipline typed connects replies st
    (telegram_posts : list telegram_post) :
  let out := get_views_async typed connects replies st telegram_posts in
  (events out = [] ∧ result out = (0, []))
  ∨ (events out = [Connect] ∧ connects = false ∧ result out = (0, []))
  ∨ (∃ middle,
       events out = Connect :: middle ++ [Disconnect]
       ∧ connects = true
       ∧ (Connect ∉ middle) ∧ (Disconnect ∉ middle)
       ∧ calls middle = List.map channel_and_id telegram_posts).
Proof.
  cbv zeta.
  destruct (get_views_async_cases typed connects replies st telegram_posts)
    as [(-> & -> & _) | [(-> & -> & ->) | (-> & _ & _ & _ & ->)]];
    [by left | by right; left |].
  right; right. eexists. split; [reflexivity |]. split; [done |].
  pose proof (calls_of_posts replies telegram_posts 0) as Hc. cbn [Nat.add] in Hc.
  split; [| split; [| exact Hc]].
  - intros H. apply list_elem_of_In, in_concat in H as (evs & Hevs & Hin).
    apply list_elem_of_In, list_elem_of_lookup in Hevs as [k Hk].
    apply list_lookup_imap_Some in Hk as (p & _ & ->).
    apply list_elem_of_In in Hin. unfold calls_and_waits in Hin.
    destruct (replies k); repeat (apply elem_of_cons in Hin as [Hin | Hin]; [done |]);
      by apply elem_of_nil in Hin.
  - intros H. apply list_elem_of_In, in_concat in H as (evs & Hevs & Hin).
    apply list_elem_of_In, list_elem_of_lookup in Hevs as [k Hk].
    apply list_lookup_imap_Some in Hk as (p & _ & ->).
    apply list_elem_of_In in Hin. unfold calls_and_waits in Hin.
    destruct (replies k); repeat (apply elem_of_cons in Hin as [Hin | Hin]; [done |]);
      by apply elem_of_nil in Hin.
Qed.

End TelegramMore.

Section TelegramTime.
Import TelegramParser.

Lemma slept_app a b : (slept (a ++ b) == slept a + slept b)%Q.
Proof.
  induction a as [|e a IH]; simpl.
  - ring.
  - destruct e; try exact IH. rewrite IH. ring.
Qed.

Lemma slept_of_posts (replies : nat -> reply) (posts : list telegram_post) i :
  (slept (concat (imap (fun k p => calls_and_waits p (replies (i + k)%nat)) posts))
   == inject_Z (Z.of_nat (length posts)) * (1 # 2)
      + inject_Z
          (fold_right
             (fun k acc =>
                match replies k with FloodWaitError s => (s + acc)%Z | _ => acc end)
             0%Z (seq i (length posts))))%Q.
Proof.
  revert i. induction posts as [|p ps IH]; intros i; [reflexivity |].
  rewrite imap_cons. cbn [concat length seq fold_right]. rewrite slept_app, Nat.add_0_r.
  rewrite (imap_ext _ (fun k p0 => calls_and_waits p0 (replies (S i + k)%nat)) ps)
    by (intros; simpl; f_equal; f_equal; lia).
  rewrite IH. rewrite Nat2Z.inj_succ. unfold Z.succ. rewrite inject_Z_plus.
  destruct (replies i) as [m | s |]; cbn [calls_and_waits slept fold_right];
    rewrite ?inject_Z_plus; ring.
Qed.

(** X16: connected, the fetcher sleeps half a second for every post
    and, besides, the seconds every rate-limit reply asks for. *)
Theorem telegram_time_slept typed replies st (telegram_posts : list telegram_post) :
  telegram_posts ≠ [] ->
  all_set (acquire_credentials typed st) = true ->
  (slept (events (get_views_async typed true replies st telegram_posts))
   == inject_Z (Z.of_nat (length telegram_posts)) * (1 # 2)
      + inject_Z (asked_to_wait replies (length telegram_posts)))%Q.
Proof.
  intros Hne Hcreds.
  destruct (get_views_async_cases typed true replies st telegram_posts)
    as [(_ & _ & [E | E]) | [(_ & _ & E) | (_ & _ & _ & _ & ->)]];
    [done | congruence | done |].
  change (Connect :: ?l ++ [Disconnect]) with ([Connect] ++ l ++ [Disconnect]).
  rewrite !slept_app. pose proof (slept_of_posts replies telegram_posts 0) as H.
  cbn [Nat.add] in H. rewrite H. unfold asked_to_wait. simpl slept. ring.
Qed.

End TelegramTime.

Section OKMore.
Import OKParser.

Lemma page_views_range r : page_views r = 0 ∨ 10 < page_views r < 1000000.
Proof.
  unfold page_views. destruct r as [|status_code soup]; [by left |].
  destruct (status_code =? 200); [| by left].
  rewrite extract_views_filter_max.
  destruct (max_or_zero_bounds (List.filter in_range (candidates soup)))
    as (Hnil & Hin & _).
  destruct (decide (List.filter in_range (candidates soup) = [])) as [E | E].
  - left. by apply Hnil.
  - right. apply Hin, kept_iff in E. tauto.
Qed.

(** X19: the OK fetcher returns one result for every post, in order,
    with the post's link; the views of each are 0 or lie strictly
    between 10 and 1,000,000, and are 0 when the request fails or the
    status is not 200; so the total is at most 999,999 a post. *)
Theorem ok_results_per_post replies (ok_posts : list ok_post) :
  let out := get_views replies ok_posts in
  out.2 = imap (fun i p => {| link := ok_original_link p;
                              views := page_views (replies i) |}) ok_posts
  ∧ List.map link out.2 = List.map ok_original_link ok_posts
  ∧ Forall (fun r => views r = 0 ∨ 10 < views r < 1000000) out.2
  ∧ 0 ≤ out.1 ≤ 999999 * Z.of_nat (length ok_posts)
  ∧ (∀ i status_code soup,
       replies i = RequestError
       ∨ (replies i = Response status_code soup ∧ status_code ≠ 200) ->
       page_views (replies i) = 0).
Proof.
  cbv zeta.
  assert (Hout : (get_views replies ok_posts).2
                 = imap (fun i p => {| link := ok_original_link p;
                                       views := page_views (replies i) |}) ok_posts).
  { unfold get_views. destruct ok_posts as [|p ps]; [done |].
    by rewrite ok_loop_spec. }
  assert (Hrange : Forall (fun r => views r = 0 ∨ 10 < views r < 1000000)
                     (get_views replies ok_posts).2).
  { rewrite Hout. apply Forall_forall. intros r Hr.
    apply list_elem_of_lookup in Hr as [k Hk].
    apply list_lookup_imap_Some in Hk as (q & _ & ->). apply page_views_range. }
  split; [done |]. split; [| split; [done | split]].
  - rewrite Hout. clear. generalize replies. induction ok_posts as [|p ps IH];
      intros f; [done |].
    rewrite imap_cons. cbn [List.map]. f_equal. apply IH.
  - rewrite ok_get_views_sum.
    assert (Hlen : length (get_views replies ok_posts).2 = length ok_posts)
      by (rewrite Hout; apply length_imap).
    rewrite <- Hlen. clear Hout Hlen.
    induction Hrange as [|r rs Hr _ IH]; [done |].
    cbn [sum_views fold_right length]. fold (sum_views rs).
    rewrite Nat2Z.inj_succ. lia.
  - intros i status_code soup [-> | [-> Hs]]; [done |]. unfold page_views.
    by destruct (Z.eqb_spec status_code 200).
Qed.

End OKMore.

Section TelegramCredentials.
Import TelegramParser.

Lemma truthy_stripped s : truthy (VStr s) = negb (str_eqb s []).
Proof. reflexivity. Qed.

(** X17: with no complete credentials in the configuration the user is
    asked for them.  If an answer is blank or the API id is no number,
    nothing is stored and the fetcher returns 0 and no results without
    trying to connect; so it does for the API id 0.  Otherwise the
    three values are stored, stripped, and the fetcher goes on to
    connect. *)
Theorem telegram_typed_credentials typed connects replies st
    (telegram_posts : list telegram_post) :
  telegram_posts ≠ [] ->
  has_telegram_creds (config st) = false ->
  let out := get_views_async typed connects replies st telegram_posts in
  (accepted_api_id typed = None ->
   result out = (0, []) ∧ events out = [] ∧ config (final out) = config st)
  ∧ (accepted_api_id typed = Some 0 -> result out = (0, []) ∧ events out = [])
  ∧ (∀ n, accepted_api_id typed = Some n ->
       get (config (final out)) (py "telegram_api_id") = VInt n
       ∧ get (config (final out)) (py "telegram_api_hash") = VStr (strip typed.1.2)
       ∧ get (config (final out)) (py "telegram_phone") = VStr (strip typed.2)
       ∧ (n ≠ 0 -> events out ≠ [])).
Proof.
  intros Hne Hno. cbv zeta. destruct typed as [[a h] p].
  assert (Hload : all_set (load_from_config st) = false) by exact Hno.
  unfold get_views_async. destruct telegram_posts as [|q qs]; [done |].
  unfold acquire_credentials. rewrite Hno. cbn [negb]. rewrite Hload. cbn [negb].
  unfold accepted_api_id, setup_credentials. cbn [fst snd].
  destruct (negb (str_eqb (strip a) []) && negb (str_eqb (strip h) [])
            && negb (str_eqb (strip p) [])) eqn:Hall.
  - destruct (py_int (strip a)) as [n|] eqn:Hint.
    + apply andb_true_iff in Hall as [[Ha Hh]%andb_true_iff Hp].
      assert (Hset : all_set (load_from_config
                 {| api_id := VInt n; api_hash := VStr (strip h); phone := VStr (strip p);
                    config := set (set (set (config (load_from_config st))
                                (py "telegram_api_id") (VInt n))
                                (py "telegram_api_hash") (VStr (strip h)))
                                (py "telegram_phone") (VStr (strip p)) |})
               = negb (n =? 0)).
      { unfold all_set, load_from_config, get, set. cbn [api_id api_hash phone config].
        lookup_keys.
        cbn [default from_option id forallb]. rewrite !truthy_stripped, Hh, Hp.
        cbn [truthy]. by rewrite !andb_true_r. }
      rewrite Hset.
      split; [done |]. split.
      * intros [= ->]. done.
      * intros ? [= <-].
        assert (Hkeys : ∀ s0 : state,
          config s0 = set (set (set (config (load_from_config st))
                                (py "telegram_api_id") (VInt n))
                                (py "telegram_api_hash") (VStr (strip h)))
                                (py "telegram_phone") (VStr (strip p)) ->
          get (config s0) (py "telegram_api_id") = VInt n
          ∧ get (config s0) (py "telegram_api_hash") = VStr (strip h)
          ∧ get (config s0) (py "telegram_phone") = VStr (strip p)).
        { intros s0 ->. unfold get, set.
          lookup_keys. done. }
        destruct (negb (n =? 0)) eqn:Hn; cbn [negb].
        -- destruct connects; cbn [negb final events];
             (split; [| split; [| split]]; try (apply Hkeys; reflexivity); try done).
           intros _. by destruct (trace _).
        -- cbn [final]. split; [| split; [| split]]; try (apply Hkeys; reflexivity).
           apply negb_false_iff, Z.eqb_eq in Hn. done.
    + change (load_from_config (load_from_config st)) with (load_from_config st).
      rewrite Hload. cbn [negb]. split; [done |]. split; done.
  - change (load_from_config (load_from_config st)) with (load_from_config st).
    rewrite Hload. cbn [negb]. split; [done |]. split; done.
Qed.

End TelegramCredentials.

Lemma vk_keeps_telegram_keys typed reply st (vk_posts : list vk_post) :
  same_telegram_keys (VKParser.config (VKParser.get_views typed reply st vk_posts).2)
    (VKParser.config st).
Proof.
  unfold VKParser.get_views. destruct vk_posts as [|p ps]; [done |].
  assert (H : same_telegram_keys (VKParser.config (VKParser.acquire_token typed st))
                (VKParser.config st)).
  { unfold VKParser.acquire_token. destruct (negb (has_vk_token _)); [| done].
    cbn [VKParser.api_token VKParser.config].
    destruct (negb (truthy _)); [| done]. unfold VKParser.setup_token.
    cbn [VKParser.config]. destruct (negb (str_eqb _ _)); [| done].
    cbn [VKParser.config]. unfold same_telegram_keys, get, set.
    by rewrite !lookup_insert_ne by key_ne. }
  by destruct (negb (truthy _)).
Qed.

Section TelegramConfig.
Import TelegramParser.

Lemma telegram_reads_its_keys typed connects replies st1 st2
    (telegram_posts : list telegram_post) :
  api_id st1 = api_id st2 -> api_hash st1 = api_hash st2 -> phone st1 = phone st2 ->
  same_telegram_keys (config st1) (config st2) ->
  result (get_views_async typed connects replies st1 telegram_posts)
  = result (get_views_async typed connects replies st2 telegram_posts)
  ∧ events (get_views_async typed connects replies st1 telegram_posts)
    = events (get_views_async typed connects replies st2 telegram_posts).
Proof.
  intros Hi Hh Hp (K1 & K2 & K3).
  assert (Hall : all_set (acquire_credentials typed st1)
                 = all_set (acquire_credentials typed st2)).
  { unfold acquire_credentials, has_telegram_creds. rewrite K1, K2, K3.
    destruct (negb (forallb truthy _)); [| unfold all_set; by rewrite Hi, Hh, Hp].
    assert (Hl : all_set (load_from_config st1) = all_set (load_from_config st2))
      by (unfold all_set, load_from_config; cbn [api_id api_hash phone];
          by rewrite K1, K2, K3).
    rewrite Hl. destruct (negb (all_set (load_from_config st2))); [| done].
    unfold setup_credentials. destruct typed as [[a h] p].
    destruct (_ && _); [| exact Hl].
    destruct (py_int (strip a)) as [n|]; [| exact Hl].
    unfold all_set, load_from_config, get, set. cbn [api_id api_hash phone config].
    by lookup_keys. }
  unfold get_views_async. destruct telegram_posts as [|q qs]; [done |].
  rewrite Hall. destruct (negb (all_set _)); [done |].
  by destruct (negb connects).
Qed.

End TelegramConfig.

(** X20: what the user types for VK and what VK replies changes
    neither the subtotal of Telegram nor that of OK. *)
Theorem platforms_are_isolated (w : world) typed reply :
  let w' := with_vk w typed reply in
  tg_views (main w') = tg_views (main w)
  ∧ ok_views (main w') = ok_views (main w).
Proof.
  cbv zeta. unfold main, with_vk. cbn [file stored vk_typed vk_reply tg_typed
    tg_connects tg_replies ok_replies].
  destruct (read_links_from_file (file w)) as [|l ls]; [done |].
  generalize (extract_post_ids (l :: ls)). intros [vks tgs oks]. cbn [vk telegram ok].
  destruct vks as [|v vs].
  { destruct tgs as [|t ts]; destruct oks as [|o os];
      cbn [tg_views ok_views]; by split. }
  pose proof (vk_keeps_telegram_keys typed reply
                {| VKParser.api_token := VNone; VKParser.config := stored w |} (v :: vs))
    as K1.
  pose proof (vk_keeps_telegram_keys (vk_typed w) (vk_reply w)
                {| VKParser.api_token := VNone; VKParser.config := stored w |} (v :: vs))
    as K2.
  destruct (VKParser.get_views typed reply _ _) as [[v1 d1] s1].
  destruct (VKParser.get_views (vk_typed w) (vk_reply w) _ _) as [[v2 d2] s2].
  cbn [snd VKParser.config] in K1, K2.
  assert (K : same_telegram_keys (VKParser.config s1) (VKParser.config s2)).
  { destruct K1 as (A1 & A2 & A3), K2 as (B1 & B2 & B3).
    unfold same_telegram_keys. by rewrite A1, A2, A3, B1, B2, B3. }
  unfold TelegramParser.get_views.
  destruct tgs as [|t ts]; destruct oks as [|o os];
    cbn [tg_views ok_views];
    try (destruct (telegram_reads_its_keys (tg_typed w) (tg_connects w) (tg_replies w)
           {| TelegramParser.api_id := VNone; TelegramParser.api_hash := VNone;
              TelegramParser.phone := VNone;
              TelegramParser.config := VKParser.config s1 |}
           {| TelegramParser.api_id := VNone; TelegramParser.api_hash := VNone;
              TelegramParser.phone := VNone;
              TelegramParser.config := VKParser.config s2 |}
           (t :: ts) eq_refl eq_refl eq_refl K) as [-> _]).
  all: by split.
Qed.

Lemma plusc_greedy {R} (p : N -> bool) d rest (k : pystr -> option R) x :
  d ≠ [] -> forallb p d = true -> plusc p rest k = None -> k rest = Some x ->
  plusc p (d ++ rest) k = Some x.
Proof.
  intros Hne Hd Hrest Hk. induction d as [|c d IH]; [done |].
  cbn [forallb] in Hd. apply andb_true_iff in Hd as [Hc Hd].
  cbn [app plusc]. rewrite Hc. destruct d as [|c' d'].
  - cbn [app]. by rewrite Hrest.
  - by rewrite IH.
Qed.

Lemma rmatch_lit {R} t s g (k : pystr -> groups -> option R) :
  rmatch false (lit t) (t ++ s) g k = k s g.
Proof.
  revert s. induction t as [|c t IH]; intros s; [done |].
  destruct t as [|c' t'].
  - cbn [lit rmatch app]. unfold chr_eqb. by rewrite N.eqb_refl.
  - change (lit (c :: c' :: t')) with (Seq (Chr c) (lit (c' :: t'))).
    cbn [rmatch app]. unfold chr_eqb. rewrite N.eqb_refl. apply IH.
Qed.

Lemma uint_digits d : forallb is_digit (py (NilEmpty.string_of_uint d)) = true.
Proof. induction d; simpl; try done; exact IHd. Qed.

Lemma str_of_pos_digits p : digit_string (str_of_int (Z.pos p)).
Proof.
  unfold str_of_int. cbn [Z.to_int NilEmpty.string_of_int]. split; [| apply uint_digits].
  pose proof (Unsigned.to_uint_nonnil p) as H.
  destruct (Pos.to_uint p); done.
Qed.

Lemma str_of_neg p : str_of_int (Z.neg p) = py "-" ++ str_of_int (Z.pos p).
Proof. reflexivity. Qed.

Lemma lower_digits d : forallb is_digit d = true -> lower d = d.
Proof.
  intros H. unfold lower. rewrite <- (List.map_id d) at 2. apply List.map_ext_in.
  intros c Hc. rewrite forallb_forall in H. apply H in Hc.
  unfold is_digit in Hc. apply between_spec in Hc. unfold cp_lower.
  repeat match goal with
  | |- context [between ?lo ?hi c] =>
      let E := fresh "E" in
      destruct (between lo hi c) eqn:E; [apply between_spec in E; lia | clear E]
  end. done.
Qed.

Lemma search_wall owner post :
  digit_string owner -> digit_string post ->
  ∃ m, search (cat [str "wall"; Opt (Chr (ch "-")); Grp 1 digits; Chr (ch "_");
                    Grp 2 digits])
         (py "wall-" ++ owner ++ py "_" ++ post) = Some m
       ∧ group m 1 = owner ∧ group m 2 = post.
Proof.
  intros [Ho1 Ho2] [Hp1 Hp2].
  eexists. split.
  - unfold search. 
    change (py "wall-" ++ owner ++ py "_" ++ post)
      with (ch "w" :: (py "all-" ++ owner ++ py "_" ++ post)).
    cbn [search_flags]. unfold match_at.
    change (ch "w" :: (py "all-" ++ owner ++ py "_" ++ post))
      with (py "wall" ++ (ch "-" :: owner ++ ch "_" :: post)).
    cbn [cat]. unfold digits. cbn [rmatch]. unfold str. rewrite rmatch_lit.
    cbn [rmatch]. unfold chr_eqb at 1. rewrite N.eqb_refl.
    erewrite (plusc_greedy is_digit owner (ch "_" :: post));
      [reflexivity | exact Ho1 | exact Ho2 | reflexivity |].
    cbn beta iota. unfold chr_eqb. rewrite N.eqb_refl.
    rewrite <- (app_nil_r post) at 1.
    erewrite (plusc_greedy is_digit post []);
      [reflexivity | exact Hp1 | exact Hp2 | reflexivity | reflexivity].
  - unfold group. cbn [m_groups]. unfold groups.
    rewrite lookup_insert_ne, !lookup_insert_eq by done. cbn [default from_option id].
    split.
    + apply take_app_suffix.
    + cbn [length]. rewrite Nat.sub_0_r. apply firstn_all.
Qed.

Section RoundTrip.
Import VKParser.

(** X10: for a group wall, the id the classifier builds from the link
    wall-OWNER_POST is the key the fetcher computes from the item of
    the reply with owner_id -OWNER and id POST, so the post gets the
    count of that item. *)
Theorem vk_link_round_trip (owner post : positive) (count : Z) others status_code :
  let link := py "wall-" ++ str_of_int (Z.pos owner) ++ py "_" ++ str_of_int (Z.pos post) in
  let item := {| item_owner_id := Some (Z.neg owner); item_id := Some (Z.pos post);
                 item_views := Some (Some count) |} in
  let data := {| data_error := None;
                 data_response := Some (Some (others ++ [item])) |} in
  vk (extract_post_ids [link])
  = [{| vk_post_id := item_key item; vk_original_link := link |}]
  ∧ (http_error status_code = false ->
     fetch (Response status_code (Some data)) (vk (extract_post_ids [link]))
     = (count, [{| link := link; views := count |}])).
Proof.
  cbv zeta.
  pose proof (str_of_pos_digits owner) as Ho. pose proof (str_of_pos_digits post) as Hp.
  set (o := str_of_int (Z.pos owner)) in *. set (q := str_of_int (Z.pos post)) in *.
  assert (Hlow : lower (py "wall-" ++ o ++ py "_" ++ q) = py "wall-" ++ o ++ py "_" ++ q).
  { unfold lower. rewrite !List.map_app. fold (lower o) (lower q).
    by rewrite (lower_digits o), (lower_digits q) by apply Ho || apply Hp. }
  assert (Hcls : vk (extract_post_ids [py "wall-" ++ o ++ py "_" ++ q])
                 = [{| vk_post_id := py "-" ++ o ++ py "_" ++ q;
                       vk_original_link := py "wall-" ++ o ++ py "_" ++ q |}]).
  { rewrite contribution_single. unfold contribution, classify_link. rewrite Hlow.
    replace (contains (py "vk.com") (py "wall-" ++ o ++ py "_" ++ q)
             || startswith (py "wall") (py "wall-" ++ o ++ py "_" ++ q)) with true
      by (symmetry; apply orb_true_r).
    cbn [vk no_posts]. unfold _extract_vk_post, vk_patterns.
    cbn [vk_pattern_loop Nat.eqb app].
    destruct (search_wall o q Ho Hp) as (m & -> & -> & ->).
    by rewrite (digit_string_no_minus o Ho). }
  assert (Hkey : item_key {| item_owner_id := Some (Z.neg owner);
                             item_id := Some (Z.pos post);
                             item_views := Some (Some count) |}
                 = py "-" ++ o ++ py "_" ++ q).
  { unfold item_key. cbn [item_owner_id item_id default from_option id].
    rewrite str_of_neg. by rewrite <- app_assoc. }
  rewrite Hcls, Hkey. split; [done |].
  intros Hs. unfold fetch. rewrite Hs. cbn [data_error data_response].
  rewrite collect_views_map. cbn [List.map sum_views fold_right].
  unfold vk_result. cbn [vk_post_id vk_original_link].
  rewrite post_views_of_snoc, Hkey, lookup_insert_eq. cbn [default from_option id item_count item_views].
  cbn [views]. by rewrite Z.add_0_r.
Qed.

End RoundTrip.

Lemma search_wall_plain owner post :
  digit_string owner -> digit_string post ->
  ∃ m, search (cat [str "wall"; Opt (Chr (ch "-")); Grp 1 digits; Chr (ch "_");
                    Grp 2 digits])
         (py "wall" ++ owner ++ py "_" ++ post) = Some m
       ∧ group m 1 = owner ∧ group m 2 = post.
Proof.
  intros [Ho1 Ho2] [Hp1 Hp2].
  assert (Hminus : ∀ t {R} g (k : pystr -> groups -> option R),
            rmatch false (Chr (ch "-")) (owner ++ t) g k = None).
  { intros t R g k. destruct owner as [|c d]; [done |].
    cbn [forallb] in Ho2. apply andb_true_iff in Ho2 as [Hc _].
    cbn [app rmatch]. unfold chr_eqb.
    destruct (N.eqb_spec (ch "-") c) as [<- | _]; [by vm_compute in Hc | done]. }
  eexists. split.
  - unfold search.
    change (py "wall" ++ owner ++ py "_" ++ post)
      with (ch "w" :: (py "all" ++ owner ++ py "_" ++ post)).
    cbn [search_flags]. unfold match_at.
    change (ch "w" :: (py "all" ++ owner ++ py "_" ++ post))
      with (py "wall" ++ (owner ++ ch "_" :: post)).
    cbn [cat]. unfold digits.
    change (rmatch false (Seq (str "wall") ?r) ?s ?g ?k)
      with (rmatch false (str "wall") s g (fun s1 g1 => rmatch false r s1 g1 k)).
    unfold str. rewrite rmatch_lit.
    change (rmatch false (Seq (Opt ?a) ?r) ?s ?g ?k)
      with (match rmatch false a s g (fun s1 g1 => rmatch false r s1 g1 k) with
            | Some x => Some x
            | None => rmatch false r s g k
            end).
    rewrite Hminus. cbn [rmatch].
    erewrite (plusc_greedy is_digit owner (ch "_" :: post));
      [reflexivity | exact Ho1 | exact Ho2 | reflexivity |].
    cbn beta iota. unfold chr_eqb. rewrite N.eqb_refl.
    rewrite <- (app_nil_r post) at 1.
    erewrite (plusc_greedy is_digit post []);
      [reflexivity | exact Hp1 | exact Hp2 | reflexivity | reflexivity].
  - unfold group. cbn [m_groups]. unfold groups.
    rewrite lookup_insert_ne, !lookup_insert_eq by done. cbn [default from_option id].
    split.
    + apply take_app_suffix.
    + cbn [length]. rewrite Nat.sub_0_r. apply firstn_all.
Qed.

Section UserWall.
Import VKParser.

(** X11: a link wallOWNER_POST to a user wall gets the id with a minus
    in front, which is not the key of the reply's item with owner_id
    OWNER and id POST: the post gets 0 views. *)
Theorem vk_user_wall_is_not_matched (owner post : positive) (count : Z) status_code :
  let link := py "wall" ++ str_of_int (Z.pos owner) ++ py "_" ++ str_of_int (Z.pos post) in
  let item := {| item_owner_id := Some (Z.pos owner); item_id := Some (Z.pos post);
                 item_views := Some (Some count) |} in
  let data := {| data_error := None; data_response := Some (Some [item]) |} in
  vk (extract_post_ids [link])
  = [{| vk_post_id := py "-" ++ item_key item; vk_original_link := link |}]
  ∧ (http_error status_code = false ->
     fetch (Response status_code (Some data)) (vk (extract_post_ids [link]))
     = (0, [{| link := link; views := 0 |}])).
Proof.
  cbv zeta.
  pose proof (str_of_pos_digits owner) as Ho. pose proof (str_of_pos_digits post) as Hp.
  set (o := str_of_int (Z.pos owner)) in *. set (q := str_of_int (Z.pos post)) in *.
  assert (Hlow : lower (py "wall" ++ o ++ py "_" ++ q) = py "wall" ++ o ++ py "_" ++ q).
  { unfold lower. rewrite !List.map_app. fold (lower o) (lower q).
    by rewrite (lower_digits o), (lower_digits q) by apply Ho || apply Hp. }
  assert (Hkey : item_key {| item_owner_id := Some (Z.pos owner);
                             item_id := Some (Z.pos post);
                             item_views := Some (Some count) |}
                 = o ++ py "_" ++ q) by reflexivity.
  assert (Hcls : vk (extract_post_ids [py "wall" ++ o ++ py "_" ++ q])
                 = [{| vk_post_id := py "-" ++ o ++ py "_" ++ q;
                       vk_original_link := py "wall" ++ o ++ py "_" ++ q |}]).
  { rewrite contribution_single. unfold contribution, classify_link. rewrite Hlow.
    replace (contains (py "vk.com") (py "wall" ++ o ++ py "_" ++ q)
             || startswith (py "wall") (py "wall" ++ o ++ py "_" ++ q)) with true
      by (symmetry; apply orb_true_r).
    cbn [vk no_posts]. unfold _extract_vk_post, vk_patterns.
    cbn [vk_pattern_loop Nat.eqb app].
    destruct (search_wall_plain o q Ho Hp) as (m & -> & -> & ->).
    by rewrite (digit_string_no_minus o Ho). }
  rewrite Hcls, Hkey. split; [done |].
  intros Hs. unfold fetch. rewrite Hs. cbn [data_error data_response].
  rewrite collect_views_map. cbn [List.map sum_views fold_right].
  unfold vk_result. cbn [vk_post_id vk_original_link].
  change [?x] with ([] ++ [x]) at 1 3.
  rewrite post_views_of_snoc, Hkey, lookup_insert_ne.
  - reflexivity.
  - intros E. destruct Ho as [Hne Hd]. destruct o as [|c d]; [done |].
    cbn [forallb] in Hd. apply andb_true_iff in Hd as [Hc _].
    change (py "-") with [45%N] in E. cbn [app] in E.
    injection E as -> _. by vm_compute in Hc.
Qed.

End UserWall.

Lemma vk_post_ids_well_formed_witness :
  (∃ minus, composite_id minus (py "-1_2"))
  ∧ py "vk.com/wall-1_2" ∈ [py "vk.com/wall-1_2"; py "t.me/chan/9"].
Proof.
  apply (vk_post_ids_well_formed [py "vk.com/wall-1_2"; py "t.me/chan/9"]
           {| vk_post_id := py "-1_2"; vk_original_link := py "vk.com/wall-1_2" |}).
  vm_compute. apply list_elem_of_here.
Defined.

Lemma telegram_posts_well_formed_witness :
  0 ≤ 9
  ∧ (∀ c, c ∈ py "chan" -> c ≠ ch "/" ∧ c ≠ ch "?" ∧ c ≠ ch "#")
  ∧ lower (py "chan") = py "chan"
  ∧ py "T.me/Chan/9" ∈ [py "vk.com/wall-1_2"; py "T.me/Chan/9"].
Proof.
  apply (telegram_posts_well_formed [py "vk.com/wall-1_2"; py "T.me/Chan/9"]
           {| tg_channel := py "chan"; tg_message_id := 9;
              tg_original_link := py "T.me/Chan/9" |}).
  vm_compute. apply list_elem_of_here.
Defined.

Lemma ok_posts_well_formed_witness :
  digit_string (py "77")
  ∧ py "group5" ≠ []
  ∧ (∀ c, c ∈ py "group5" -> c ≠ ch "/" ∧ c ≠ ch "?")
  ∧ lower (py "group5") = py "group5"
  ∧ py "ok.ru/group5/topic/77" ∈ [py "ok.ru/group5/topic/77"].
Proof.
  apply (ok_posts_well_formed [py "ok.ru/group5/topic/77"]
           {| ok_group_name := py "group5"; ok_topic_id := py "77";
              ok_original_link := py "ok.ru/group5/topic/77" |}).
  vm_compute. apply list_elem_of_here.
Defined.

Lemma read_links_are_stripped_witness :
  py "t.me/chan/9" ≠ [] ∧ strip (py "t.me/chan/9") = py "t.me/chan/9"
  ∧ (∃ line lines,
       Some [py ""; py "  t.me/chan/9 "] = Some lines ∧ line ∈ lines
       ∧ py "t.me/chan/9" = strip line).
Proof.
  apply (read_links_are_stripped (Some [py ""; py "  t.me/chan/9 "]) (py "t.me/chan/9")).
  vm_compute. apply list_elem_of_here.
Defined.

Lemma vk_typed_token_is_used_witness :
  (VKParser.get_views (py " token ") (VKParser.Response 200 (Some vk_one_item))
     vk_fresh vk_two_posts).1
  = VKParser.fetch (VKParser.Response 200 (Some vk_one_item)) vk_two_posts
  ∧ has_vk_token
      (VKParser.config
         (VKParser.get_views (py " token ") (VKParser.Response 200 (Some vk_one_item))
            vk_fresh vk_two_posts).2) = true.
Proof.
  destruct (vk_typed_token_is_used (py " token ")
              (VKParser.Response 200 (Some vk_one_item)) vk_fresh vk_two_posts)
    as [H _]; [vm_compute; discriminate | vm_compute; reflexivity |].
  destruct H as (H1 & _ & H3); [vm_compute; discriminate |]. by split.
Defined.

Lemma stored_vk_token_not_loaded_witness :
  (VKParser.get_views (py "") (VKParser.Response 200 (Some vk_one_item))
     vk_stored vk_two_posts).1 = (0, []).
Proof.
  apply stored_vk_token_not_loaded; vm_compute; reflexivity.
Defined.

Lemma stored_telegram_creds_not_loaded_witness :
  TelegramParser.result
    (TelegramParser.get_views_async tg_typed_example true tg_replies_example
       tg_stored tg_three_posts) = (0, []).
Proof.
  apply stored_telegram_creds_not_loaded; vm_compute; reflexivity.
Defined.

Lemma telegram_time_slept_witness :
  (slept (TelegramParser.events
            (TelegramParser.get_views_async tg_typed_example true tg_replies_example
               tg_fresh tg_three_posts))
   == 13 # 2)%Q.
Proof.
  rewrite (telegram_time_slept tg_typed_example tg_replies_example tg_fresh
             tg_three_posts);
    [vm_compute; reflexivity | vm_compute; discriminate | vm_compute; reflexivity].
Defined.

Lemma telegram_typed_credentials_witness :
  TelegramParser.result
    (TelegramParser.get_views_async (py "abc", py "hash", py "+7912") true
       tg_replies_example tg_fresh tg_three_posts) = (0, [])
  ∧ TelegramParser.events
      (TelegramParser.get_views_async (py "abc", py "hash", py "+7912") true
         tg_replies_example tg_fresh tg_three_posts) = [].
Proof.
  destruct (telegram_typed_credentials (py "abc", py "hash", py "+7912") true
              tg_replies_example tg_fresh tg_three_posts) as [H _];
    [vm_compute; discriminate | vm_compute; reflexivity |].
  destruct H as (H1 & H2 & _); [vm_compute; reflexivity |]. by split.
Defined.
